(** * email-api: users, products with an expiry date, and the expiry scan job

    A shallow embedding of [main.go].  The program is a thin layer over four
    collaborators: the HTTP framework (gin), the relational store (gorm over
    sqlite), the mail transport (gomail) and the wall clock.  The handlers and
    the job are written in a small state monad over a [World] that holds the
    store, the log, the messages handed to the mail transport, the clock, and
    the schedules that say which SQL statements and which mail deliveries
    fail.  The day arithmetic of the job is done on IEEE 754 binary64 numbers,
    as in the source, through the standard library's [SpecFloat].

    The path parameter [:id] reaches the store as the text it is.  What the
    store library and the SQL engine make of a decimal numeral is modelled;
    what they make of any other text is a parameter of the world, its
    [engine].

    The functions [addProduct] and [listProducts] of the source are reachable
    from no route and from no job; they are modelled after the notions of the
    routed program.  [sendEmail], which nothing calls, is left out. *)

From Stdlib Require Import ZArith NArith List String Ascii Bool Lia.
From Stdlib Require Import DecimalString SpecFloat.
From Stdlib Require Import Reals Lra.
From Stdlib Require Import Sorted.
Import ListNotations.

Local Open Scope Z_scope.

(* ================================================================== *)
(** ** Machine integers *)

Definition uint := N.
Bind Scope N_scope with uint.

Definition minInt64 : Z := - 2 ^ 63.
Definition maxInt64 : Z := 2 ^ 63 - 1.

Definition inInt64 (z : Z) : bool := (minInt64 <=? z) && (z <=? maxInt64).

(* ================================================================== *)
(** ** Package strconv *)

Module strconv.

Definition digit (c : ascii) : option Z :=
  let n := Z.of_nat (nat_of_ascii c) in
  if (48 <=? n) && (n <=? 57) then Some (n - 48) else None.

(** The loop over the digits: [n = n*10 + d]; any other byte is a syntax
    error. *)
Fixpoint digits (s : string) (n : Z) : option Z :=
  match s with
  | EmptyString => Some n
  | String c r =>
      match digit c with
      | Some d => digits r (n * 10 + d)
      | None => None
      end
  end.

(** The number that a decimal numeral denotes: an optional sign, then at
    least one digit, and nothing else. *)
Definition numeral (s : string) : option Z :=
  match s with
  | EmptyString => None
  | String c r =>
      if Ascii.eqb c "-"%char then
        match r with
        | EmptyString => None
        | _ => option_map Z.opp (digits r 0)
        end
      else if Ascii.eqb c "+"%char then
        match r with
        | EmptyString => None
        | _ => digits r 0
        end
      else digits s 0
  end.

(** [strconv.Atoi(s)] on a 64-bit target: the numeral's value when it fits
    an [int]; a syntax error or a range error otherwise ([None]). *)
Definition Atoi (s : string) : option Z :=
  match numeral s with
  | Some n => if inInt64 n then Some n else None
  | None => None
  end.

End strconv.

(* ================================================================== *)
(** ** float64: IEEE 754 binary64 *)

Module float64.

Definition prec : Z := 53.
Definition emax : Z := 1024.

Definition t := spec_float.

  (** Conversion of an integer, rounding to nearest even. *)
Definition of_int (z : Z) : t := binary_normalize prec emax z 0 false.

Definition add : t -> t -> t := SFadd prec emax.
Definition div : t -> t -> t := SFdiv prec emax.

  (** The integer part of a finite number, towards zero. *)
Definition trunc (s : bool) (m : positive) (e : Z) : Z :=
    let a := if 0 <=? e then Z.pos m * 2 ^ e else Z.pos m / 2 ^ (- e) in
    if s then - a else a.

  (** Go's [int(f)] on a 64-bit target: the fraction is discarded; a value
      that does not fit (and an infinity or a NaN) gives the "integer
      indefinite" value of the amd64 conversion instruction. *)
Definition to_int (f : t) : Z :=
    match f with
    | S754_zero _ => 0
    | S754_finite s m e =>
        let v := trunc s m e in if inInt64 v then v else minInt64
    | S754_infinity _ | S754_nan => minInt64
    end.

  (** Every number the program produces is a zero or a finite number. *)
Definition is_finite (f : t) : bool :=
    match f with
    | S754_zero _ | S754_finite _ _ _ => true
    | _ => false
    end.

End float64.

(* ================================================================== *)
(** ** Package time *)

Module time.

  (** A [Duration] is an int64 count of nanoseconds. *)
Definition Duration := Z.

Definition Nanosecond : Duration := 1.
Definition Second : Duration := 1000000000 * Nanosecond.
Definition Minute : Duration := 60 * Second.
Definition Hour : Duration := 60 * Minute.

Definition minDuration : Duration := minInt64.
Definition maxDuration : Duration := maxInt64.

  (** An instant, in nanoseconds on the time line. *)
Definition Time := Z.

  (** [t.Sub(u)]: the duration [t - u]; when it does not fit a [Duration]
      the maximum (or minimum) duration is returned. *)
Definition Sub (t u : Time) : Duration :=
    let d := t - u in
    if d <? minDuration then minDuration
    else if maxDuration <? d then maxDuration
    else d.

  (** [d.Hours()]:
<<
      hour := d / Hour
      nsec := d % Hour
      return float64(hour) + float64(nsec)/(60*60*1e9)
>> *)
Definition Hours (d : Duration) : float64.t :=
    let hour := Z.quot d Hour in
    let nsec := Z.rem d Hour in
    float64.add (float64.of_int hour)
                (float64.div (float64.of_int nsec)
                             (float64.of_int (60 * 60 * 1000000000))).

End time.

(* ================================================================== *)
(** ** Package fmt: the three format strings of the program *)

Module fmt.

Local Open Scope string_scope.

Definition nl : string := String (ascii_of_nat 10) EmptyString.

  (** The verb [%d] on an int. *)
Definition d (z : Z) : string := NilZero.string_of_int (Z.to_int z).

Definition join (sep : string) (l : list string) : string :=
    match l with
    | [] => ""
    | x :: r => fold_left (fun acc y => acc ++ sep ++ y) r x
    end.

  (** The verb [%v] on a slice of strings. *)
Definition v (l : list string) : string := "[" ++ join " " l ++ "]".

End fmt.

(* ================================================================== *)
(** ** The data model *)

Module Product.
Record t := mk {
    ID : uint;
    Name : string;
    Expiry : time.Time;
    UserID : uint;
    CreatedAt : time.Time
  }.
End Product.

Module User.
Record t := mk {
    ID : uint;
    Name : string;
    Email : string;
    Products : list Product.t
  }.
End User.

(* ================================================================== *)
(** ** The world the program runs in *)

Definition error := option string.

(** What the execution of one SQL statement does: it completes, or it fails
    with a message after having scanned some of the rows. *)
Inductive SqlOutcome :=
| SqlOk
| SqlFailed (msg : string) (scanned : nat).

(** A row of the table [users]: the association [Products] is no column. *)
Record UserRow := mkUserRow {
  row_id : uint;
  row_name : string;
  row_email : string
}.

Record DB := mkDB {
  users : list UserRow;
  products : list Product.t
}.

(** What the SQL engine makes of the texts that the program hands to it and
    that are no decimal integers.  Nothing in [main.go] determines it. *)
Module sqlite.
Record Engine := mkEngine {
    (** [SELECT * FROM users WHERE <cond> ORDER BY users.id LIMIT 1] for a
        text [cond] that is taken as SQL: the store after the statement, and
        the user and the error that [First] gets *)
    raw_where : string -> DB -> DB * (User.t * option string);
    (** whether a text bound to a parameter equals the value of an integer
        column *)
    text_eq : string -> uint -> bool
  }.
End sqlite.

Module gomail.
Record Message := mk {
    From : string;
    To : string;
    Subject : string;
    Body : string
  }.
End gomail.

Record World := mkWorld {
  db : DB;
  (** outcomes of the SQL statements to come, in order; none left: success *)
  sql_faults : list SqlOutcome;
  (** the wall clock: the reading number [ticks] is the next one *)
  wall : nat -> time.Time;
  ticks : nat;
  (** errors of the mail deliveries to come, in order; none left: success *)
  smtp_faults : list error;
  (** every message handed to the mail transport, with what became of it *)
  outbox : list (gomail.Message * error);
  (** the lines written with package log *)
  log : list string;
  (** the SQL engine, on what the program leaves to it *)
  engine : sqlite.Engine
}.

(** *** The state monad *)

Definition M (A : Type) : Type := World -> A * World.

Definition ret {A} (a : A) : M A := fun w => (a, w).

Definition bind {A B} (m : M A) (k : A -> M B) : M B :=
  fun w => let (a, w') := m w in k a w'.

Declare Scope monad_scope.
Delimit Scope monad_scope with monad.
Notation "x <- m ;; k" := (bind m (fun x => k))
  (at level 61, m at next level, right associativity) : monad_scope.
Notation "m ;; k" := (bind m (fun _ => k))
  (at level 61, right associativity) : monad_scope.
Local Open Scope monad_scope.

(** [for _, x := range l { body }] *)
Fixpoint forM_ {A} (l : list A) (body : A -> M unit) : M unit :=
  match l with
  | [] => ret tt
  | x :: r => body x ;; forM_ r body
  end.

Definition run {A} (m : M A) (w : World) : World := snd (m w).
Definition result {A} (m : M A) (w : World) : A := fst (m w).

(** *** Package log *)

Definition log_Println (line : string) : M unit :=
  fun w => (tt, mkWorld (db w) (sql_faults w) (wall w) (ticks w)
                        (smtp_faults w) (outbox w) (log w ++ [line]) (engine w)).

(** *** The clock *)

Definition time_Now : M time.Time :=
  fun w => (wall w (ticks w),
            mkWorld (db w) (sql_faults w) (wall w) (S (ticks w))
                    (smtp_faults w) (outbox w) (log w) (engine w)).


(* ================================================================== *)
(** ** Package gomail: the transport *)

(** [d.DialAndSend(m)]: the message is handed to the transport, which
    delivers it or reports an error. *)
Definition DialAndSend (m : gomail.Message) : M error :=
  fun w =>
    let err := hd None (smtp_faults w) in
    (err, mkWorld (db w) (sql_faults w) (wall w) (ticks w)
                  (tl (smtp_faults w)) (outbox w ++ [(m, err)]) (log w)
                  (engine w)).

(* ================================================================== *)
(** ** Package gorm: the store *)

Module gorm.

Definition ErrRecordNotFound : string := "record not found"%string.

(** The execution of one SQL statement takes the next outcome of the
    schedule. *)
Definition exec : M SqlOutcome :=
  fun w =>
    (hd SqlOk (sql_faults w),
     mkWorld (db w) (tl (sql_faults w)) (wall w) (ticks w)
             (smtp_faults w) (outbox w) (log w) (engine w)).

Definition get_db : M DB := fun w => (db w, w).

Definition put_db (d : DB) : M unit :=
  fun w => (tt, mkWorld d (sql_faults w) (wall w) (ticks w)
                        (smtp_faults w) (outbox w) (log w) (engine w)).

Definition get_engine : M sqlite.Engine := fun w => (engine w, w).

(** The key of a new row: one more than the largest key of the table. *)
Definition next_id (ids : list uint) : uint :=
  N.succ (fold_right N.max 0%N ids).

(** A row scanned into a [User]: [Products] is left as it was, nil. *)
Definition scan (r : UserRow) : User.t :=
  User.mk (row_id r) (row_name r) (row_email r) [].

Definition has_id (id : uint) (r : UserRow) : bool := N.eqb (row_id r) id.

Definition owned_by (id : uint) (p : Product.t) : bool :=
  N.eqb (Product.UserID p) id.

(** The row whose key is the integer [k]. *)
Definition has_key (k : Z) (r : UserRow) : bool := Z.of_N (row_id r) =? k.

(** [user_id = ?] with a text bound to the parameter.  The engine compares
    a text that is a decimal integer as that integer; the comparison with any
    other text is left to it. *)
Definition owned_by_text (e : sqlite.Engine) (s : string) (p : Product.t)
  : bool :=
  match strconv.Atoi s with
  | Some k => Z.of_N (Product.UserID p) =? k
  | None => sqlite.text_eq e s (Product.UserID p)
  end.

(** The row that [ORDER BY users.id LIMIT 1] keeps: the one of least key. *)
Fixpoint least_row (rows : list UserRow) : option UserRow :=
  match rows with
  | [] => None
  | r :: rest =>
      match least_row rest with
      | Some m => if N.ltb (row_id m) (row_id r) then Some m else Some r
      | None => Some r
      end
  end.

Definition zero_User : User.t := User.mk 0%N ""%string ""%string [].

(** [db.Create(&user)], for a user without products. *)
Definition Create_User (u : User.t) : M (User.t * error) :=
  o <- exec ;;
  match o with
  | SqlFailed msg _ => ret (u, Some msg)
  | SqlOk =>
      d <- get_db ;;
      let ids := map row_id (users d) in
      let id := if N.eqb (User.ID u) 0 then next_id ids else User.ID u in
      if existsb (N.eqb id) ids
      then ret (u, Some "UNIQUE constraint failed: users.id"%string)
      else
        put_db (mkDB (users d ++ [mkUserRow id (User.Name u) (User.Email u)])
                     (products d)) ;;
        ret (User.mk id (User.Name u) (User.Email u) (User.Products u), None)
  end.

(** [db.Create(&product)]: a zero [CreatedAt] is set to the current time
    before the statement is executed. *)
Definition Create_Product (p : Product.t) : M (Product.t * error) :=
  now <- time_Now ;;
  let created := if Product.CreatedAt p =? 0 then now else Product.CreatedAt p in
  let p1 := Product.mk (Product.ID p) (Product.Name p) (Product.Expiry p)
                       (Product.UserID p) created in
  o <- exec ;;
  match o with
  | SqlFailed msg _ => ret (p1, Some msg)
  | SqlOk =>
      d <- get_db ;;
      let ids := map Product.ID (products d) in
      let id := if N.eqb (Product.ID p) 0 then next_id ids else Product.ID p in
      if existsb (N.eqb id) ids
      then ret (p1, Some "UNIQUE constraint failed: products.id"%string)
      else
        let p2 := Product.mk id (Product.Name p) (Product.Expiry p)
                             (Product.UserID p) created in
        put_db (mkDB (users d) (products d ++ [p2])) ;;
        ret (p2, None)
  end.

(** [db.Find(&users)] *)
Definition Find_Users : M (list User.t * error) :=
  o <- exec ;;
  d <- get_db ;;
  match o with
  | SqlFailed msg n => ret (map scan (firstn n (users d)), Some msg)
  | SqlOk => ret (map scan (users d), None)
  end.

(** [db.First(&user, cond)] with a text [cond].  The library tries
    [strconv.Atoi(cond)]:
    - when it succeeds, [cond] is the primary key,
      [WHERE users.id = ?] with the text bound, and the row with that key is
      read;
    - when it fails, [cond] itself is the SQL condition,
      [WHERE <cond> ORDER BY users.id LIMIT 1].  A numeral that fails is one
      out of the range of [int]: as a condition it is a number that is not
      zero, true of every row, so the row of least key is read.  What any
      other text does is up to the engine.
    No row is the error [ErrRecordNotFound], and [user] stays the zero value
    on an error. *)
Definition First_User (cond : string) : M (User.t * error) :=
  o <- exec ;;
  d <- get_db ;;
  match o with
  | SqlFailed msg _ => ret (zero_User, Some msg)
  | SqlOk =>
      match strconv.Atoi cond with
      | Some k =>
          match find (has_key k) (users d) with
          | Some r => ret (scan r, None)
          | None => ret (zero_User, Some ErrRecordNotFound)
          end
      | None =>
          match strconv.numeral cond with
          | Some _ =>
              match least_row (users d) with
              | Some r => ret (scan r, None)
              | None => ret (zero_User, Some ErrRecordNotFound)
              end
          | None =>
              e <- get_engine ;;
              let (d', r) := sqlite.raw_where e cond d in
              put_db d' ;;
              ret r
          end
      end
  end.

(** [db.Where("user_id = ?", id).Find(&products)], the text [id] bound to
    the parameter: no row is no error. *)
Definition Where_user_id_Find (id : string) : M (list Product.t * error) :=
  o <- exec ;;
  d <- get_db ;;
  e <- get_engine ;;
  let rows := filter (owned_by_text e id) (products d) in
  match o with
  | SqlFailed msg n => ret (firstn n rows, Some msg)
  | SqlOk => ret (rows, None)
  end.

(** [db.Preload("Products").Find(&users)]: the users are read first; when
    that succeeded and gave a user, one more statement reads their products,
    which are assigned, in the order read, to their owners. *)
Definition Preload_Products_Find : M (list User.t * error) :=
  o <- exec ;;
  d <- get_db ;;
  match o with
  | SqlFailed msg n => ret (map scan (firstn n (users d)), Some msg)
  | SqlOk =>
      match users d with
      | [] => ret ([], None)
      | _ =>
          o2 <- exec ;;
          match o2 with
          | SqlFailed msg _ => ret (map scan (users d), Some msg)
          | SqlOk =>
              ret (map (fun r => User.mk (row_id r) (row_name r) (row_email r)
                                   (filter (owned_by (row_id r)) (products d)))
                       (users d), None)
          end
      end
  end.

End gorm.

(* ================================================================== *)
(** ** Packages http and gin: requests and responses *)

Module http.
Definition StatusOK : Z := 200.
Definition StatusBadRequest : Z := 400.
Definition StatusNotFound : Z := 404.
End http.

Module gin.

(** The value given to [c.JSON]. *)
Inductive Value :=
| H_error (msg : string)
| VUser (u : User.t)
| VUsers (l : list User.t)
| VProduct (p : Product.t)
| VProducts (l : list Product.t).

Record Response := mkResponse {
  Status : Z;
  Payload : Value
}.

(** A request, as a handler that binds its body to a struct of type [A] sees
    it: [c.Param("id")], the text of the path parameter [:id] as it came
    (empty on a route without it), and what [c.ShouldBindJSON(&input)] makes
    of the body: the error of a body that does not bind (malformed JSON), or
    the struct filled from a well-formed one. *)
Record Context (A : Type) := mkContext {
  Param_id : string;
  ShouldBindJSON : string + A
}.
Arguments Param_id {A}.
Arguments ShouldBindJSON {A}.
Arguments mkContext {A}.

Definition JSON (code : Z) (obj : Value) : M Response :=
  ret (mkResponse code obj).

End gin.

(* ================================================================== *)
(** ** The program *)

Local Open Scope string_scope.

(** The anonymous input structs of the two POST handlers. *)
Record UserInput := mkUserInput {
  input_Name : string;
  input_Email : string
}.

Record ProductInput := mkProductInput {
  pinput_Name : string;
  pinput_Expiry : time.Time
}.

(** *** The handlers *)

Definition createUser (c : gin.Context UserInput) : M gin.Response :=
  match gin.ShouldBindJSON c with
  | inl err => gin.JSON http.StatusBadRequest (gin.H_error err)
  | inr input =>
      let user := User.mk 0%N (input_Name input) (input_Email input) [] in
      r <- gorm.Create_User user ;;
      let user := fst r in
      gin.JSON http.StatusOK (gin.VUser user)
  end.

Definition listUsers : M gin.Response :=
  r <- gorm.Find_Users ;;
  let users := fst r in
  gin.JSON http.StatusOK (gin.VUsers users).

Definition addProductToUser (c : gin.Context ProductInput) : M gin.Response :=
  match gin.ShouldBindJSON c with
  | inl err => gin.JSON http.StatusBadRequest (gin.H_error err)
  | inr input =>
      r <- gorm.First_User (gin.Param_id c) ;;
      let (user, err) := r in
      match err with
      | Some _ => gin.JSON http.StatusNotFound (gin.H_error "user not found")
      | None =>
          let product :=
            Product.mk 0%N (pinput_Name input) (pinput_Expiry input)
                       (User.ID user) 0 in
          r <- gorm.Create_Product product ;;
          let product := fst r in
          gin.JSON http.StatusOK (gin.VProduct product)
      end
  end.

Definition listUserProducts {A} (c : gin.Context A) : M gin.Response :=
  r <- gorm.Where_user_id_Find (gin.Param_id c) ;;
  let (products, err) := r in
  match err with
  | Some _ =>
      gin.JSON http.StatusNotFound (gin.H_error "user not found or no products")
  | None => gin.JSON http.StatusOK (gin.VProducts products)
  end.

(** *** The routes registered by [main] *)

Inductive Request :=
| POST_users (c : gin.Context UserInput)
| GET_users
| POST_users_id_products (c : gin.Context ProductInput)
| GET_users_id_products (c : gin.Context unit).

Definition serve (r : Request) : M gin.Response :=
  match r with
  | POST_users c => createUser c
  | GET_users => listUsers
  | POST_users_id_products c => addProductToUser c
  | GET_users_id_products c => listUserProducts c
  end.

(** *** The expiry scan job *)

(** [int(p.Expiry.Sub(now).Hours() / 24)] *)
Definition daysLeft (expiry now : time.Time) : Z :=
  float64.to_int
    (float64.div (time.Hours (time.Sub expiry now)) (float64.of_int 24)).

(** [fmt.Sprintf("%s (เหลือ %d วัน)", p.Name, daysLeft)] *)
Definition describe (name : string) (days : Z) : string :=
  name ++ " (เหลือ " ++ fmt.d days ++ " วัน)".

(** The inner loop of the job: the descriptions of the products of one user
    that are about to expire. *)
Definition expiring_of (now : time.Time) (ps : list Product.t) : list string :=
  fold_left
    (fun expiring p =>
       let days := daysLeft (Product.Expiry p) now in
       if (days <=? 3)%Z
       then (expiring ++ [describe (Product.Name p) days])%list
       else expiring)
    ps [].

Definition mail_body (products : list string) : string :=
  fold_left (fun body p => body ++ "- " ++ p ++ fmt.nl) products
            ("รายการสินค้าที่ใกล้หมดอายุ:" ++ fmt.nl).

(** The message that [sendEmailToUser] builds. *)
Definition new_message (email : string) (products : list string) : gomail.Message :=
  gomail.mk "your-email@gmail.com" email
            "แจ้งเตือนสินค้าของคุณใกล้หมดอายุ" (mail_body products).

Definition sendEmailToUser (email : string) (products : list string) : M unit :=
  let m := new_message email products in
  err <- DialAndSend m ;;
  match err with
  | Some e => log_Println ("❌ ส่งอีเมลผิดพลาด: " ++ e)
  | None => log_Println ("✅ ส่งอีเมลแล้ว: " ++ email)
  end.

(** The body of the outer loop, for one user. *)
Definition notify (now : time.Time) (u : User.t) : M unit :=
  let expiring := expiring_of now (User.Products u) in
  if (0 <? List.length expiring)%nat
  then
    log_Println ("เตรียมส่งอีเมลไปที่ " ++ User.Email u ++ " : " ++ fmt.v expiring) ;;
    sendEmailToUser (User.Email u) expiring
  else ret tt.

Definition checkExpiryJob : M unit :=
  log_Println "Running expiry check job..." ;;
  r <- gorm.Preload_Products_Find ;;
  let users := fst r in
  now <- time_Now ;;
  forM_ users (notify now).

(* ================================================================== *)
(** ** Notions used to state the properties *)

(** The duration of a day, and the day count by integer division that
    truncates towards zero. *)
Definition Day : time.Duration := 24 * time.Hour.

Definition truncated_days (expiry now : time.Time) : Z :=
  Z.quot (expiry - now) Day.

(** A product qualifies when the job's day count is at most 3. *)
Definition qualifies (now : time.Time) (p : Product.t) : bool :=
  (daysLeft (Product.Expiry p) now <=? 3)%Z.

Definition description (now : time.Time) (p : Product.t) : string :=
  describe (Product.Name p) (daysLeft (Product.Expiry p) now).

(** What the store hands to a run of the job in the world [w], and the error
    of that read. *)
Definition loaded_users (w : World) : list User.t :=
  fst (result gorm.Preload_Products_Find w).

Definition read_error (w : World) : error :=
  snd (result gorm.Preload_Products_Find w).

(** What has been handed to the transport, and logged, since the world
    [w0]. *)
Definition new_outbox (w0 w : World) : list (gomail.Message * error) :=
  skipn (List.length (outbox w0)) (outbox w).

Definition new_log (w0 w : World) : list string :=
  skipn (List.length (log w0)) (log w).

(** The notifications of a run: the recipient and the body of every message
    handed to the transport since the world [w0]. *)
Definition sent_since (w0 w : World) : list (string * string) :=
  map (fun me => (gomail.To (fst me), gomail.Body (fst me))) (new_outbox w0 w).

(** The messages for one user: none, or one. *)
Definition messages (now : time.Time) (u : User.t) : list gomail.Message :=
  match filter (qualifies now) (User.Products u) with
  | [] => []
  | ps => [new_message (User.Email u) (map (description now) ps)]
  end.

(** What one user is to receive: nothing, or one message. *)
Definition notification (now : time.Time) (u : User.t) : list (string * string) :=
  match filter (qualifies now) (User.Products u) with
  | [] => []
  | ps => [(User.Email u, mail_body (map (description now) ps))]
  end.

(** The transport takes the messages in turn, each with the next outcome of
    the schedule. *)
Fixpoint deliver (faults : list error) (ms : list gomail.Message)
  : list (gomail.Message * error) :=
  match ms with
  | [] => []
  | m :: r => (m, hd None faults) :: deliver (tl faults) r
  end.

(** The run from [w] to [w'] handed the messages [ms] to the transport, logged
    every failure, and touched nothing else. *)
Definition delivered (ms : list gomail.Message) (w w' : World) : Prop :=
  outbox w' = (outbox w ++ deliver (smtp_faults w) ms)%list /\
  smtp_faults w' = skipn (List.length ms) (smtp_faults w) /\
  db w' = db w /\ sql_faults w' = sql_faults w /\
  wall w' = wall w /\ ticks w' = ticks w /\ engine w' = engine w /\
  exists ls, log w' = (log w ++ ls)%list /\
    (ms = [] -> ls = []) /\
    forall m e, In (m, Some e) (deliver (smtp_faults w) ms) ->
                In ("❌ ส่งอีเมลผิดพลาด: " ++ e) ls.

(** The same world with another schedule of delivery failures. *)
Definition with_smtp_faults (faults : list error) (w : World) : World :=
  mkWorld (db w) (sql_faults w) (wall w) (ticks w) faults (outbox w) (log w)
          (engine w).

(** The line of a message for one description, and the text of a message as
    its heading followed by its lines. *)
Definition line (p : string) : string := "- " ++ p ++ fmt.nl.

Definition heading : string := "รายการสินค้าที่ใกล้หมดอายุ:" ++ fmt.nl.

Fixpoint lines (l : list string) : string :=
  match l with
  | [] => ""
  | p :: r => line p ++ lines r
  end.

(** [sub] occurs in [s]. *)
Definition occurs (sub s : string) : Prop :=
  exists pre post, s = pre ++ sub ++ post.

(* ================================================================== *)
(** ** Worlds used as examples *)

Definition noon : time.Time := 63000000000000000000.

(** An engine that takes no text for a condition and equates no text with a
    number. *)
Definition example_engine : sqlite.Engine :=
  sqlite.mkEngine (fun _ d => (d, (gorm.zero_User, Some "SQL logic error")))
                  (fun _ _ => false).

(** Two users: the first owns milk (two days left), rice (ten days left) and
    eggs (expired yesterday); the second owns salt (ten days left). *)
Definition example_db : DB :=
  mkDB [mkUserRow 1 "A" "a@x.com"; mkUserRow 2 "B" "b@x.com"]
       [Product.mk 1 "Milk" (noon + 2 * Day) 1 noon;
        Product.mk 2 "Rice" (noon + 10 * Day) 1 noon;
        Product.mk 3 "Eggs" (noon - Day) 1 noon;
        Product.mk 4 "Salt" (noon + 10 * Day) 2 noon].

Definition example_world : World :=
  mkWorld example_db [] (fun _ => noon) 0 [] [] [] example_engine.

(** The same world, in which the next delivery fails and something has been
    logged and handed to the transport before. *)
Definition example_world_smtp_down : World :=
  mkWorld example_db [] (fun _ => noon) 0 [Some "dial tcp: i/o timeout"]
          [(new_message "c@x.com" ["Tea (เหลือ 1 วัน)"], None)]
          ["Server started on :8081"] example_engine.

(** The same world, in which the next SQL statement fails. *)
Definition example_world_sql_down : World :=
  mkWorld example_db [SqlFailed "database is locked" 0] (fun _ => noon) 0
          [] [] [] example_engine.

(** The same world, in which the read of the products fails after the read
    of the users succeeded. *)
Definition example_world_preload_down : World :=
  mkWorld example_db [SqlOk; SqlFailed "database is locked" 0]
          (fun _ => noon) 0 [] [] [] example_engine.

(** A world with an empty store, and the requests of three scenarios. *)
Definition empty_world : World :=
  mkWorld (mkDB [] []) [] (fun _ => noon) 0 [] [] [] example_engine.

Definition post_user (name email : string) : Request :=
  POST_users (gin.mkContext "" (inr (mkUserInput name email))).

Definition post_product (id : string) (name : string) (expiry : time.Time)
  : Request :=
  POST_users_id_products (gin.mkContext id (inr (mkProductInput name expiry))).

(** The world after a list of requests has been served. *)
Definition after (rs : list Request) (w : World) : World :=
  fold_left (fun w r => run (serve r) w) rs w.

(* ================================================================== *)
(** ** The real numbers behind binary64

    The value of a finite number, and the numbers of the format, used to
    follow the job's day count through the roundings of [Hours() / 24]. *)

Definition bpow (e : Z) : R := powerRZ 2 e.

Definition F2R (m e : Z) : R := (IZR m * bpow e)%R.

Definition SF2R (f : spec_float) : R :=
  match f with
  | S754_finite s m e => F2R (cond_Zopp s (Z.pos m)) e
  | _ => 0%R
  end.

(** The non-negative numbers of the format. *)
Definition format (c : R) : Prop :=
  exists m e, c = F2R m e /\ 0 <= m < 2 ^ 53 /\ -1074 <= e <= 971.

Definition sformat (c : R) : Prop := format c \/ format (- c).

Definition shr_inexact (mrs : shr_record) : bool := shr_r mrs || shr_s mrs.

(** [b] is [a] shifted right by [k] places. *)
Definition shifted (k : Z) (a b : shr_record) : Prop :=
  0 <= shr_m b /\ shr_m b = shr_m a / 2 ^ k /\
  (shr_inexact b = false <-> shr_inexact a = false /\ shr_m a = shr_m b * 2 ^ k).

Notation "'fexp64'" := (fexp 53 1024).


(* ================================================================== *)
(** ** The functions that no route and no job reaches *)

(** [db.Find(&products)] *)
Definition Find_Products : M (list Product.t * error) :=
  o <- gorm.exec ;;
  d <- gorm.get_db ;;
  match o with
  | SqlFailed msg n => ret (firstn n (products d), Some msg)
  | SqlOk => ret (products d, None)
  end.

(** [addProduct]: as [addProductToUser], without the user: [UserID] stays the
    zero value. *)
Definition addProduct (c : gin.Context ProductInput) : M gin.Response :=
  match gin.ShouldBindJSON c with
  | inl err => gin.JSON http.StatusBadRequest (gin.H_error err)
  | inr input =>
      let product :=
        Product.mk 0 (pinput_Name input) (pinput_Expiry input) 0 0 in
      r <- gorm.Create_Product product ;;
      let product := fst r in
      gin.JSON http.StatusOK (gin.VProduct product)
  end.

Definition listProducts : M gin.Response :=
  r <- Find_Products ;;
  let products := fst r in
  gin.JSON http.StatusOK (gin.VProducts products).

(* ================================================================== *)
(** ** The process: requests and runs of the job, one after the other *)

(** What [main] sets up: the four routes, served by [serve], and the job,
    run by the scheduler. *)
Inductive Event :=
| HTTP (r : Request)
| Cron.

Definition handle (e : Event) (w : World) : World :=
  match e with
  | HTTP r => run (serve r) w
  | Cron => run checkExpiryJob w
  end.

Definition history (es : list Event) (w : World) : World :=
  fold_left (fun w e => handle e w) es w.

(** The path parameter of a request that looks for a user is a decimal
    numeral: the store library takes it for a key, or for a number, and
    hands no SQL of the request's own to the engine. *)
Definition numeral_id (r : Request) : bool :=
  match r with
  | POST_users_id_products c =>
      match strconv.numeral (gin.Param_id c) with
      | Some _ => true
      | None => false
      end
  | _ => true
  end.

Definition numeral_ids (e : Event) : bool :=
  match e with
  | HTTP r => numeral_id r
  | Cron => true
  end.

(** A history: users are added, products are asked for under the key of a
    user, under the key of nobody and under a numeral beyond the range of
    [int], and the job runs. *)
Definition example_history : list Event :=
  [HTTP (post_user "A" "a@x.com");
   HTTP (post_product "1" "Milk" (noon + 2 * Day));
   Cron;
   HTTP (post_product "7" "Tea" noon);
   HTTP (post_product "99999999999999999999" "Rice" noon);
   HTTP (post_user "B" "b@x.com")].

(** *** Invariants of the store *)

(** The keys of a table are positive and grow along the table. *)
Definition keys_ok (ids : list uint) : Prop :=
  StronglySorted N.lt (0%N :: ids).

(** Every product is owned by a user of the store. *)
Definition owners_exist (d : DB) : Prop :=
  Forall (fun p => In (Product.UserID p) (map row_id (users d))) (products d).

Definition store_ok (d : DB) : Prop :=
  keys_ok (map row_id (users d)) /\
  keys_ok (map Product.ID (products d)) /\
  owners_exist d.

(** What one request, or one run of the job, can do to the store: nothing,
    or add one user under the next key, or add one product under the next
    key for a user of the store. *)
Inductive store_step (d : DB) : DB -> Prop :=
| step_none : store_step d d
| step_user name email :
    store_step d
      (mkDB (users d ++ [mkUserRow (gorm.next_id (map row_id (users d)))
                                   name email])
            (products d))
| step_product name expiry owner created :
    In owner (map row_id (users d)) ->
    store_step d
      (mkDB (users d)
            (products d ++
               [Product.mk (gorm.next_id (map Product.ID (products d)))
                           name expiry owner created])).

(** The worlds [w] and [w'] differ by the store and by the schedule of SQL
    outcomes (and the count of clock readings) at most: nothing was mailed
    and nothing logged. *)
Definition quiet (w w' : World) : Prop :=
  outbox w' = outbox w /\ log w' = log w /\
  smtp_faults w' = smtp_faults w /\ wall w' = wall w.

(** The lines that a run of the job logs for the messages it handed to the
    transport: for each, the line before the sending and the line of its
    outcome. *)
Definition intent_line (now : time.Time) (u : User.t) : string :=
  "เตรียมส่งอีเมลไปที่ " ++ User.Email u ++ " : "
  ++ fmt.v (expiring_of now (User.Products u)).

Definition outcome_line (me : gomail.Message * error) : string :=
  match snd me with
  | Some e => "❌ ส่งอีเมลผิดพลาด: " ++ e
  | None => "✅ ส่งอีเมลแล้ว: " ++ gomail.To (fst me)
  end.

(** The lines that a run logs after its first: for each user with a message,
    in the order of the users, the line before the sending and the line of
    the outcome. *)
Fixpoint run_log (now : time.Time) (faults : list error) (us : list User.t)
  : list string :=
  match us with
  | [] => []
  | u :: r =>
      match messages now u with
      | [] => run_log now faults r
      | m :: _ =>
          intent_line now u :: outcome_line (m, hd None faults)
            :: run_log now (tl faults) r
      end
  end.
(* ================================================================== *)
(** * Properties *)

(** ** Rounding in binary64 stays between the numbers of the format *)

Section Binary64.

Local Open Scope Z_scope.

Lemma bpow_pos e : (0 < bpow e)%R.
Proof. apply powerRZ_lt; lra. Qed.

Lemma bpow_add a b : bpow (a + b) = (bpow a * bpow b)%R.
Proof. apply powerRZ_add; lra. Qed.

Lemma bpow_IZR n : 0 <= n -> bpow n = IZR (2 ^ n).
Proof.
  intros Hn. unfold bpow.
  rewrite <- (Z2Nat.id n Hn) at 1.
  rewrite <- pow_powerRZ, pow_IZR, Z2Nat.id by exact Hn. reflexivity.
Qed.

Lemma bpow_le a b : a <= b -> (bpow a <= bpow b)%R.
Proof.
  intros H. replace b with (a + (b - a)) by lia.
  rewrite bpow_add, (bpow_IZR (b - a)) by lia.
  assert (1 <= 2 ^ (b - a)) by (apply (Z.pow_le_mono_r 2 0); lia).
  apply IZR_le in H0. pose proof (bpow_pos a). nra.
Qed.

Lemma F2R_shift m e n : 0 <= n -> F2R (m * 2 ^ n) e = F2R m (e + n).
Proof.
  intros Hn. unfold F2R. rewrite bpow_add, (bpow_IZR n), mult_IZR by exact Hn. ring.
Qed.

Lemma F2R_le a b e : a <= b -> (F2R a e <= F2R b e)%R.
Proof. intros H. apply IZR_le in H. unfold F2R. pose proof (bpow_pos e). nra. Qed.

Lemma F2R_lt a b e : a < b -> (F2R a e < F2R b e)%R.
Proof. intros H. apply IZR_lt in H. unfold F2R. pose proof (bpow_pos e). nra. Qed.

Lemma F2R_lt_inv a b e : (F2R a e < F2R b e)%R -> a < b.
Proof.
  intros H. destruct (Z_lt_le_dec a b) as [|Hle]; [assumption|].
  apply (F2R_le _ _ e) in Hle. lra.
Qed.

Lemma F2R_le_inv a b e : (F2R a e <= F2R b e)%R -> a <= b.
Proof.
  intros H. destruct (Z_le_gt_dec a b) as [|Hgt]; [assumption|].
  apply Z.gt_lt, (F2R_lt _ _ e) in Hgt. lra.
Qed.

Lemma digits2_pos_bounds m :
  2 ^ (Z.pos (digits2_pos m) - 1) <= Z.pos m < 2 ^ Z.pos (digits2_pos m).
Proof.
  induction m as [m IH|m IH|]; cbn [digits2_pos].
  - rewrite Pos2Z.inj_succ. replace (Z.succ (Z.pos (digits2_pos m)) - 1) with (Z.succ (Z.pos (digits2_pos m) - 1)) by lia.
    rewrite !Z.pow_succ_r by lia. lia.
  - rewrite Pos2Z.inj_succ. replace (Z.succ (Z.pos (digits2_pos m)) - 1) with (Z.succ (Z.pos (digits2_pos m) - 1)) by lia.
    rewrite !Z.pow_succ_r by lia. lia.
  - cbn. lia.
Qed.

Lemma Zdigits2_bounds m : 0 < m -> 2 ^ (Zdigits2 m - 1) <= m < 2 ^ Zdigits2 m.
Proof. destruct m; try lia. intros _. apply digits2_pos_bounds. Qed.

Lemma Zdigits2_nonneg m : 0 <= Zdigits2 m.
Proof. destruct m; cbn; lia. Qed.

Lemma shr_1_shifted mrs : 0 <= shr_m mrs -> shifted 1 mrs (shr_1 mrs).
Proof.
  destruct mrs as [m r s]. unfold shifted, shr_inexact. cbn [shr_m shr_r shr_s].
  intros Hm. change (2 ^ 1) with 2.
  destruct m as [|[p|p|]|p]; cbn [shr_1 shr_m shr_r shr_s]; try lia.
  - split; [lia|]. split; [reflexivity|].
    cbn [orb]. split; [intros E; split; [exact E | reflexivity] | intros [E _]; exact E].
  - split; [lia|]. split.
    + apply (Z.div_unique_pos _ _ _ 1); lia.
    + cbn [orb]. split; [discriminate | intros [_ E]; lia].
  - split; [lia|]. split.
    + apply (Z.div_unique_pos _ _ _ 0); lia.
    + cbn [orb]. split; [intros E; split; [exact E | lia] | intros [E _]; exact E].
  - split; [lia|]. split; [reflexivity|]. cbn [orb].
    split; [discriminate | intros [_ E]; lia].
Qed.

Lemma shifted_trans j k a b c :
  0 <= j -> 0 <= k -> shifted j a b -> shifted k b c -> shifted (j + k) a c.
Proof.
  intros Hj Hk (Hb & Eb & Xb) (Hc & Ec & Xc). unfold shifted.
  assert (Pj : 0 < 2 ^ j) by (apply Z.pow_pos_nonneg; lia).
  assert (Pk : 0 < 2 ^ k) by (apply Z.pow_pos_nonneg; lia).
  split; [exact Hc|]. split.
  - rewrite Ec, Eb, Z.pow_add_r by lia. apply Z.div_div; lia.
  - rewrite Z.pow_add_r by lia. split.
    + intros H. destruct (proj1 Xc H) as [Ib Mb]. destruct (proj1 Xb Ib) as [Ia Ma].
      split; [exact Ia|]. rewrite Ma, Mb. ring.
    + intros [Ia Ma]. apply Xc.
      assert (Mb : shr_m b = shr_m c * 2 ^ k).
      { rewrite Eb, Ma. replace (shr_m c * (2 ^ j * 2 ^ k)) with (shr_m c * 2 ^ k * 2 ^ j) by ring.
        apply Z.div_mul. lia. }
      split; [|exact Mb]. apply Xb. split; [exact Ia|]. rewrite Ma, Mb. ring.
Qed.

Lemma iter_pos_shifted p mrs :
  0 <= shr_m mrs -> shifted (Z.pos p) mrs (SpecFloat.iter_pos shr_1 p mrs).
Proof.
  revert mrs. induction p as [p IH|p IH|]; intros mrs Hm; cbn [SpecFloat.iter_pos].
  - pose proof (shr_1_shifted mrs Hm) as H1.
    pose proof (IH _ (proj1 H1)) as H2.
    pose proof (IH _ (proj1 H2)) as H3.
    replace (Z.pos p~1) with (1 + (Z.pos p + Z.pos p)) by lia.
    eapply shifted_trans; [lia | lia | exact H1 |].
    eapply shifted_trans; [lia | lia | exact H2 | exact H3].
  - pose proof (IH _ Hm) as H2.
    pose proof (IH _ (proj1 H2)) as H3.
    replace (Z.pos p~0) with (Z.pos p + Z.pos p) by lia.
    eapply shifted_trans; [lia | lia | exact H2 | exact H3].
  - apply shr_1_shifted, Hm.
Qed.

Lemma fexp64_eq e : fexp64 e = Z.max (e - 53) (-1074).
Proof. reflexivity. Qed.

Lemma loc_of_shr_record_exact mrs :
  loc_of_shr_record mrs = loc_Exact <-> shr_inexact mrs = false.
Proof.
  destruct mrs as [m [|] [|]]; cbn; split; intros H; discriminate || reflexivity.
Qed.

Lemma shr_record_of_loc_m m l : shr_m (shr_record_of_loc m l) = m.
Proof. destruct l as [|[| |]]; reflexivity. Qed.

Lemma shr_record_of_loc_exact m l :
  shr_inexact (shr_record_of_loc m l) = false <-> l = loc_Exact.
Proof.
  destruct l as [|[| |]]; cbn; split; intros H; discriminate || reflexivity.
Qed.

Lemma shr_fexp_spec m e l :
  0 <= m -> e <= fexp64 (Zdigits2 m + e) ->
  exists mrs,
    shr_fexp 53 1024 m e l = (mrs, fexp64 (Zdigits2 m + e)) /\
    shr_m mrs = m / 2 ^ (fexp64 (Zdigits2 m + e) - e) /\
    (loc_of_shr_record mrs = loc_Exact <->
     l = loc_Exact /\ m = shr_m mrs * 2 ^ (fexp64 (Zdigits2 m + e) - e)).
Proof.
  intros Hm He. unfold shr_fexp, shr.
  remember (fexp64 (Zdigits2 m + e)) as e1 eqn:E1.
  destruct (e1 - e) as [|p|p] eqn:En; try lia.
  - exists (shr_record_of_loc m l). replace e1 with e by lia.
    rewrite shr_record_of_loc_m. change (2 ^ 0) with 1. rewrite Z.div_1_r.
    split; [reflexivity|]. split; [reflexivity|].
    rewrite loc_of_shr_record_exact, shr_record_of_loc_exact. 
    split; [intros H; split; [exact H | lia] | intros [H _]; exact H].
  - destruct (iter_pos_shifted p (shr_record_of_loc m l)) as (H0 & H1 & H2).
    { rewrite shr_record_of_loc_m. exact Hm. }
    rewrite shr_record_of_loc_m in H1, H2.
    rewrite shr_record_of_loc_exact in H2.
    exists (SpecFloat.iter_pos shr_1 p (shr_record_of_loc m l)).
    split; [f_equal; lia|]. split; [exact H1|].
    rewrite loc_of_shr_record_exact. exact H2.
Qed.

(** Truncating a mantissa to the exponent of the format. *)
Lemma truncate_canonical m e :
  0 <= m -> e <= fexp64 (Zdigits2 m + e) ->
  let e1 := fexp64 (Zdigits2 m + e) in
  let m1 := m / 2 ^ (e1 - e) in
  0 <= m1 < 2 ^ 53 /\ (e1 = -1074 \/ 2 ^ 52 <= m1) /\ -1074 <= e1 /\
  m1 * 2 ^ (e1 - e) <= m < (m1 + 1) * 2 ^ (e1 - e).
Proof.
  intros Hm He e1 m1.
  assert (Hn : 0 <= e1 - e) by (unfold e1; lia).
  assert (Hp : 0 < 2 ^ (e1 - e)) by (apply Z.pow_pos_nonneg; lia).
  assert (Hdiv : m1 * 2 ^ (e1 - e) <= m < (m1 + 1) * 2 ^ (e1 - e)).
  { unfold m1. pose proof (Z.div_mod m (2 ^ (e1 - e)) ltac:(lia)) as D.
    pose proof (Z.mod_pos_bound m (2 ^ (e1 - e)) Hp). nia. }
  assert (H0 : 0 <= m1) by (apply Z.div_pos; lia).
  assert (Hemin : -1074 <= e1) by (unfold e1; rewrite fexp64_eq; lia).
  destruct (Z.eq_dec m 0) as [->|Hm0].
  { unfold m1. rewrite Z.div_0_l by lia. cbn [Zdigits2] in *.
    repeat split; try lia. left. unfold e1. rewrite fexp64_eq. 
    unfold e1 in He. rewrite fexp64_eq in He. lia. }
  pose proof (Zdigits2_bounds m ltac:(lia)) as [Dl Du].
  set (d := Zdigits2 m) in *.
  assert (Hd : 0 < d).
  { destruct (Z_lt_le_dec 0 d); [assumption|]. 
    assert (2 ^ d <= 2 ^ 0) by (apply Z.pow_le_mono_r; lia). 
    change (2 ^ 0) with 1 in *. lia. }
  destruct (Z_le_gt_dec (-1074) (d + e - 53)) as [Hnorm|Hsub].
  - assert (Ee : e1 = d + e - 53) by (unfold e1; rewrite fexp64_eq; fold d; lia).
    assert (En : e1 - e = d - 53) by lia. rewrite En in *.
    assert (P1 : 2 ^ (d - 1) = 2 ^ 52 * 2 ^ (d - 53)).
    { rewrite <- Z.pow_add_r by lia. f_equal. lia. }
    assert (P2 : 2 ^ d = 2 ^ 53 * 2 ^ (d - 53)).
    { rewrite <- Z.pow_add_r by lia. f_equal. lia. }
    repeat split; try lia; try nia.
  - assert (Ee : e1 = -1074) by (unfold e1; rewrite fexp64_eq; fold d; lia).
    repeat split; try lia.
    assert (d < 53 + (e1 - e)) by lia.
    assert (2 ^ d <= 2 ^ (52 + (e1 - e))) by (apply Z.pow_le_mono_r; lia).
    rewrite Z.pow_add_r in H1 by lia. nia.
Qed.

Lemma format_grid c m1 e1 :
  format c -> -1074 <= e1 -> e1 = -1074 \/ 2 ^ 52 <= m1 ->
  (c < F2R m1 e1)%R \/ (e1 <= 971 /\ exists k, c = F2R k e1).
Proof.
  intros (mc & ec & -> & Hmc & Hec) He1 Hcan.
  destruct (Z_le_gt_dec e1 ec) as [Hle|Hgt].
  - right. split; [lia|]. exists (mc * 2 ^ (ec - e1)).
    rewrite F2R_shift by lia. f_equal. lia.
  - left. destruct Hcan as [->|Hm1]; [lia|].
    replace e1 with (ec + (e1 - ec)) by lia. rewrite <- F2R_shift by lia.
    apply F2R_lt.
    assert (2 ^ 1 <= 2 ^ (e1 - ec)) by (apply Z.pow_le_mono_r; lia).
    change (2 ^ 1) with 2 in *. change (2 ^ 53) with (2 ^ 52 * 2) in *. nia.
Qed.

Lemma format_gap c m1 e1 :
  format c -> -1074 <= e1 -> e1 = -1074 \/ 2 ^ 52 <= m1 ->
  (F2R m1 e1 < c)%R -> (F2R (m1 + 1) e1 <= c)%R.
Proof.
  intros Hc He1 Hcan Hlt.
  destruct (format_grid c m1 e1 Hc He1 Hcan) as [H|[_ [k ->]]]; [lra|].
  apply F2R_le. apply F2R_lt_inv in Hlt. lia.
Qed.

Lemma format_gap' c m1 e1 :
  format c -> -1074 <= e1 -> e1 = -1074 \/ 2 ^ 52 <= m1 ->
  (c < F2R (m1 + 1) e1)%R -> (c <= F2R m1 e1)%R.
Proof.
  intros Hc He1 Hcan Hlt.
  destruct (format_grid c m1 e1 Hc He1 Hcan) as [H|[_ [k ->]]]; [lra|].
  apply F2R_le. apply F2R_lt_inv in Hlt. lia.
Qed.

Lemma format_no_overflow c m1 e1 :
  format c -> -1074 <= e1 -> e1 = -1074 \/ 2 ^ 52 <= m1 ->
  (F2R m1 e1 <= c)%R -> e1 <= 971.
Proof.
  intros Hc He1 Hcan Hle.
  destruct (format_grid c m1 e1 Hc He1 Hcan) as [H|[H _]]; [lra|exact H].
Qed.

Lemma round_nearest_even_cases m l :
  round_nearest_even m l = m \/
  (round_nearest_even m l = m + 1 /\ l <> loc_Exact).
Proof.
  destruct l as [|[| |]]; cbn; auto.
  - destruct (Z.even m); [left; reflexivity | right; split; [reflexivity | discriminate]].
  - right. split; [reflexivity | discriminate].
Qed.

Lemma Zdigits2_ge_53 m : 2 ^ 52 <= m -> 53 <= Zdigits2 m.
Proof.
  intros H. assert (0 < m) by (assert (0 < 2 ^ 52) by reflexivity; lia).
  pose proof (Zdigits2_bounds m H0) as [_ Hu].
  destruct (Z_lt_le_dec (Zdigits2 m) 53) as [Hlt|]; [|assumption].
  assert (2 ^ Zdigits2 m <= 2 ^ 52) by (apply Z.pow_le_mono_r; lia). lia.
Qed.

Lemma F2R_truncate m e n m1 :
  0 <= n -> m1 * 2 ^ n <= m < (m1 + 1) * 2 ^ n ->
  (F2R m1 (e + n) <= F2R m e < F2R (m1 + 1) (e + n))%R.
Proof.
  intros Hn [H1 H2]. rewrite <- !F2R_shift by exact Hn.
  split; [apply F2R_le | apply F2R_lt]; assumption.
Qed.

Lemma F2R_0 e : F2R 0 e = 0%R.
Proof. unfold F2R. ring. Qed.

Lemma second_exponent m e :
  -1074 <= e -> e = -1074 \/ 2 ^ 52 <= m -> e <= fexp64 (Zdigits2 m + e).
Proof.
  intros He [->|Hm]; rewrite fexp64_eq; [lia|].
  pose proof (Zdigits2_ge_53 m Hm). lia.
Qed.

(** Rounding keeps a number between the numbers of the format that enclose
    it: the number lies in the interval of the mantissa [mx] at [ex], exactly
    at its start when [lx] is [loc_Exact]. *)
Lemma binary_round_aux_bounds sx mx ex lx clo chi :
  0 <= mx -> ex <= fexp64 (Zdigits2 mx + ex) ->
  format clo -> format chi ->
  (clo < F2R (mx + 1) ex)%R ->
  (F2R mx ex < chi)%R \/ (lx = loc_Exact /\ (F2R mx ex <= chi)%R) ->
  float64.is_finite (binary_round_aux 53 1024 sx mx ex lx) = true /\
  exists a, (clo <= a <= chi)%R /\
            SF2R (binary_round_aux 53 1024 sx mx ex lx) = (if sx then - a else a)%R.
Proof.
  intros Hmx Hex Flo Fhi Hlo Hhi.
  destruct (shr_fexp_spec mx ex lx Hmx Hex) as (mrs1 & E1 & M1 & X1).
  pose proof (truncate_canonical mx ex Hmx Hex) as T1. cbv zeta in T1.
  rewrite <- M1 in T1. destruct T1 as (B1 & C1 & Emin1 & D1).
  set (e1 := fexp64 (Zdigits2 mx + ex)) in *.
  set (m1 := shr_m mrs1) in *.
  assert (R1 : (F2R m1 e1 <= F2R mx ex < F2R (m1 + 1) e1)%R).
  { replace e1 with (ex + (e1 - ex)) by lia. apply F2R_truncate; [lia | exact D1]. }
  assert (R1' : (F2R (mx + 1) ex <= F2R (m1 + 1) e1)%R).
  { replace e1 with (ex + (e1 - ex)) by lia. rewrite <- F2R_shift by lia.
    apply F2R_le. lia. }
  set (m2 := round_nearest_even m1 (loc_of_shr_record mrs1)).
  assert (Hm2 : m2 = m1 \/ (m2 = m1 + 1 /\ loc_of_shr_record mrs1 <> loc_Exact))
    by apply round_nearest_even_cases.
  assert (B2 : 0 <= m2) by lia.
  assert (C2 : e1 = -1074 \/ 2 ^ 52 <= m2) by lia.
  pose proof (second_exponent m2 e1 Emin1 C2) as Hex2.
  destruct (shr_fexp_spec m2 e1 loc_Exact B2 Hex2) as (mrs2 & E2 & M2 & _).
  pose proof (truncate_canonical m2 e1 B2 Hex2) as T2. cbv zeta in T2.
  rewrite <- M2 in T2. destruct T2 as (B3 & C3 & Emin3 & D3).
  set (e3 := fexp64 (Zdigits2 m2 + e1)) in *.
  set (m3 := shr_m mrs2) in *.
  assert (R3 : (F2R m3 e3 <= F2R m2 e1 < F2R (m3 + 1) e3)%R).
  { replace e3 with (e1 + (e3 - e1)) by lia. apply F2R_truncate; [lia | exact D3]. }
  (* the bounds on the rounded mantissa *)
  assert (U2 : (F2R m2 e1 <= chi)%R).
  { destruct Hm2 as [->|[-> Hne]].
    - destruct Hhi as [H|[_ H]]; lra.
    - apply format_gap; try assumption.
      destruct Hhi as [H|[Hl H]]; [lra|].
      assert (m1 * 2 ^ (e1 - ex) <> mx).
      { intros Heq. apply Hne, X1. split; [exact Hl | lia]. }
      assert (m1 * 2 ^ (e1 - ex) < mx) by lia.
      apply (F2R_lt _ _ ex) in H1. rewrite F2R_shift in H1 by lia.
      replace (ex + (e1 - ex)) with e1 in H1 by lia. lra. }
  assert (L2 : (clo <= F2R m2 e1)%R).
  { destruct Hm2 as [->|[-> Hne]]; [|lra].
    apply format_gap'; try assumption. lra. }
  assert (L3 : (clo <= F2R m3 e3)%R).
  { apply format_gap'; try assumption. lra. }
  assert (U3 : (F2R m3 e3 <= chi)%R) by lra.
  assert (O3 : e3 <= 971) by (apply (format_no_overflow chi m3 e3); assumption).
  unfold binary_round_aux. rewrite E1. fold m1 m2. rewrite E2. fold m3.
  destruct m3 as [|p|p] eqn:Em3; [| |lia].
  - split; [reflexivity|]. exists 0%R. rewrite F2R_0 in L3, U3.
    split; [lra|]. cbn. destruct sx; lra.
  - replace (e3 <=? 1024 - 53) with true by (symmetry; apply Z.leb_le; lia).
    split; [reflexivity|]. exists (F2R (Z.pos p) e3). split; [lra|].
    cbn [SF2R]. destruct sx; cbn [cond_Zopp]; [|reflexivity].
    unfold F2R. rewrite opp_IZR. ring.
Qed.

Lemma iter_xO_pos m d : Z.pos (Pos.iter xO m d) = Z.pos m * 2 ^ Z.pos d.
Proof.
  induction d as [|d IH] using Pos.peano_ind.
  - cbn. lia.
  - rewrite Pos.iter_succ, Pos2Z.inj_xO, IH, Pos2Z.inj_succ, Z.pow_succ_r by lia. ring.
Qed.

Lemma iter_xO_digits m d :
  Z.pos (digits2_pos (Pos.iter xO m d)) = Z.pos (digits2_pos m) + Z.pos d.
Proof.
  induction d as [|d IH] using Pos.peano_ind.
  - cbn. lia.
  - rewrite Pos.iter_succ. cbn [digits2_pos]. rewrite Pos2Z.inj_succ, IH. lia.
Qed.

Lemma shl_align_spec mx ex ex' :
  let '(mz, ez) := shl_align mx ex ex' in
  F2R (Z.pos mz) ez = F2R (Z.pos mx) ex /\
  Z.pos (digits2_pos mz) + ez = Z.pos (digits2_pos mx) + ex /\
  ez = Z.min ex ex'.
Proof.
  unfold shl_align. destruct (ex' - ex) as [|d|d] eqn:E.
  - repeat split; lia.
  - repeat split; lia.
  - rewrite iter_xO_pos, iter_xO_digits.
    replace ex with (ex' + Z.pos d) by lia.
    rewrite F2R_shift by lia. repeat split; lia.
Qed.

Lemma binary_round_bounds sx mx ex clo chi :
  format clo -> format chi ->
  (clo <= F2R (Z.pos mx) ex <= chi)%R ->
  float64.is_finite (binary_round 53 1024 sx mx ex) = true /\
  exists a, (clo <= a <= chi)%R /\
            SF2R (binary_round 53 1024 sx mx ex) = (if sx then - a else a)%R.
Proof.
  intros Flo Fhi Hx. unfold binary_round.
  pose proof (shl_align_spec mx ex (fexp64 (Z.pos (digits2_pos mx) + ex))) as S.
  destruct (shl_align mx ex (fexp64 (Z.pos (digits2_pos mx) + ex))) as [mz ez].
  destruct S as (Sv & Sd & Se).
  apply binary_round_aux_bounds; try assumption; try lia.
  - cbn [Zdigits2]. rewrite Sd. lia.
  - rewrite <- Sv in Hx. pose proof (F2R_lt (Z.pos mz) (Z.pos mz + 1) ez ltac:(lia)). lra.
  - right. split; [reflexivity|]. rewrite Sv. lra.
Qed.

Lemma format_nonneg c : format c -> (0 <= c)%R.
Proof.
  intros (m & e & -> & Hm & _). unfold F2R.
  pose proof (bpow_pos e). assert (0 <= IZR m)%R by (apply IZR_le; lia). nra.
Qed.

Lemma format_0 : format 0.
Proof. exists 0, 0. rewrite F2R_0. repeat split; lia. Qed.

Lemma sformat_bracket slo shi (sx : bool) x :
  sformat slo -> sformat shi -> (0 <= x)%R ->
  (slo <= (if sx then - x else x) <= shi)%R ->
  exists clo chi, format clo /\ format chi /\ (clo <= x <= chi)%R /\
    forall a, (clo <= a <= chi)%R -> (slo <= (if sx then - a else a) <= shi)%R.
Proof.
  intros Slo Shi Hx Hb. pose proof format_0 as F0.
  destruct sx.
  - (* negative: x in [-shi, -slo] *)
    assert (Fhi : format (- slo)).
    { destruct Slo as [F|F]; [|exact F]. apply format_nonneg in F.
      replace (- slo)%R with 0%R by lra. exact F0. }
    destruct (Rle_dec shi 0) as [Hs|Hs].
    + assert (Flo : format (- shi)).
      { destruct Shi as [F|F]; [|exact F]. apply format_nonneg in F.
        replace (- shi)%R with 0%R by lra. exact F0. }
      exists (- shi)%R, (- slo)%R. repeat split; try assumption; try lra.
      all: intros; lra.
    + exists 0%R, (- slo)%R. repeat split; try assumption; try lra.
      all: intros; lra.
  - assert (Fhi : format shi).
    { destruct Shi as [F|F]; [exact F|]. apply format_nonneg in F.
      replace shi with 0%R by lra. exact F0. }
    destruct (Rle_dec 0 slo) as [Hs|Hs].
    + assert (Flo : format slo).
      { destruct Slo as [F|F]; [exact F|]. apply format_nonneg in F.
        replace slo with 0%R by lra. exact F0. }
      exists slo, shi. repeat split; try assumption; try lra.
      all: intros; lra.
    + exists 0%R, shi. repeat split; try assumption; try lra.
      all: intros; lra.
Qed.

Lemma binary_round_aux_real (sx : bool) mx ex lx x slo shi :
  0 <= mx -> ex <= fexp64 (Zdigits2 mx + ex) ->
  (F2R mx ex <= x < F2R (mx + 1) ex)%R ->
  (lx = loc_Exact <-> x = F2R mx ex) ->
  sformat slo -> sformat shi ->
  (slo <= (if sx then - x else x) <= shi)%R ->
  float64.is_finite (binary_round_aux 53 1024 sx mx ex lx) = true /\
  (slo <= SF2R (binary_round_aux 53 1024 sx mx ex lx) <= shi)%R.
Proof.
  intros Hmx Hex Hx Hl Slo Shi Hb.
  assert (X0 : (0 <= x)%R).
  { pose proof (F2R_le 0 mx ex Hmx) as H. rewrite F2R_0 in H. lra. }
  destruct (sformat_bracket slo shi sx x Slo Shi X0 Hb)
    as (clo & chi & Flo & Fhi & Hc & Hall).
  destruct (binary_round_aux_bounds sx mx ex lx clo chi) as (Hfin & a & Ha & Ea);
    try assumption; try lra.
  - destruct lx as [|c].
    + right. split; [reflexivity|]. lra.
    + left. assert (x <> F2R mx ex) by (intros E; apply Hl in E; discriminate). lra.
  - split; [exact Hfin|]. rewrite Ea. apply Hall, Ha.
Qed.

Lemma binary_normalize_bounds m e szero slo shi :
  sformat slo -> sformat shi -> (slo <= F2R m e <= shi)%R ->
  float64.is_finite (binary_normalize 53 1024 m e szero) = true /\
  (slo <= SF2R (binary_normalize 53 1024 m e szero) <= shi)%R.
Proof.
  intros Slo Shi Hb. destruct m as [|p|p]; cbn [binary_normalize].
  - rewrite F2R_0 in Hb. split; [reflexivity|]. cbn. lra.
  - assert (X0 : (0 <= F2R (Z.pos p) e)%R).
    { pose proof (F2R_le 0 (Z.pos p) e ltac:(lia)) as H. rewrite F2R_0 in H. lra. }
    destruct (sformat_bracket slo shi false _ Slo Shi X0 Hb)
      as (clo & chi & Flo & Fhi & Hc & Hall).
    destruct (binary_round_bounds false p e clo chi Flo Fhi Hc) as (Hfin & a & Ha & Ea).
    split; [exact Hfin|]. rewrite Ea. apply (Hall a Ha).
  - assert (X0 : (0 <= F2R (Z.pos p) e)%R).
    { pose proof (F2R_le 0 (Z.pos p) e ltac:(lia)) as H. rewrite F2R_0 in H. lra. }
    assert (Hb' : (slo <= - F2R (Z.pos p) e <= shi)%R).
    { replace (- F2R (Z.pos p) e)%R with (F2R (Z.neg p) e); [exact Hb|].
      unfold F2R. change (Z.neg p) with (- Z.pos p). rewrite opp_IZR. ring. }
    destruct (sformat_bracket slo shi true _ Slo Shi X0 Hb')
      as (clo & chi & Flo & Fhi & Hc & Hall).
    destruct (binary_round_bounds true p e clo chi Flo Fhi Hc) as (Hfin & a & Ha & Ea).
    split; [exact Hfin|]. rewrite Ea. apply (Hall a Ha).
Qed.

Lemma F2R_cond_Zopp s m e :
  F2R (cond_Zopp s m) e = (if s then - F2R m e else F2R m e)%R.
Proof. destruct s; cbn [cond_Zopp]; [|reflexivity]. unfold F2R. rewrite opp_IZR. ring. Qed.

Lemma F2R_plus a b e : F2R (a + b) e = (F2R a e + F2R b e)%R.
Proof. unfold F2R. rewrite plus_IZR. ring. Qed.

Lemma shl_align_fst mx ex ez :
  ez <= ex -> F2R (Z.pos (fst (shl_align mx ex ez))) ez = F2R (Z.pos mx) ex.
Proof.
  intros H. pose proof (shl_align_spec mx ex ez) as S.
  destruct (shl_align mx ex ez) as [mz e']. destruct S as (Sv & _ & Se).
  cbn [fst]. replace ez with e' by lia. exact Sv.
Qed.

Lemma SFadd_bounds x y slo shi :
  float64.is_finite x = true -> float64.is_finite y = true ->
  sformat slo -> sformat shi ->
  (slo <= SF2R x + SF2R y <= shi)%R ->
  float64.is_finite (SFadd 53 1024 x y) = true /\
  (slo <= SF2R (SFadd 53 1024 x y) <= shi)%R.
Proof.
  intros Fx Fy Slo Shi Hb.
  destruct x as [sx|sx| |sx mx ex]; try discriminate;
  destruct y as [sy|sy| |sy my ey]; try discriminate.
  - cbn [SFadd]. destruct sx, sy; cbn in *; split; try reflexivity; lra.
  - cbn [SFadd]. cbn [SF2R] in *. split; [reflexivity | lra].
  - cbn [SFadd]. cbn [SF2R] in *. split; [reflexivity | lra].
  - cbn [SFadd]. apply binary_normalize_bounds; try assumption.
    rewrite F2R_plus, !F2R_cond_Zopp, !shl_align_fst by lia.
    cbn [SF2R] in Hb. rewrite !F2R_cond_Zopp in Hb. exact Hb.
Qed.

Lemma new_location_exact n k : new_location n k = loc_Exact <-> k = 0.
Proof.
  unfold new_location, new_location_even, new_location_odd.
  destruct (Z.even n); destruct (Z.eqb_spec k 0) as [->|Hk]; split; intros H;
    try reflexivity; try discriminate; try contradiction.
Qed.

Lemma Zdigits2_succ_le q : 0 <= q -> q + 1 <= 2 ^ Zdigits2 q.
Proof.
  intros Hq. destruct (Z.eq_dec q 0) as [->|H]; [cbn; lia|].
  pose proof (Zdigits2_bounds q ltac:(lia)). lia.
Qed.

Lemma SFdiv_core_binary_spec m1 e1 m2 e2 :
  0 < m1 -> 0 < m2 ->
  let '(q, e', l) := SFdiv_core_binary 53 1024 m1 e1 m2 e2 in
  let x := (F2R m1 e1 / F2R m2 e2)%R in
  0 <= q /\ e' <= fexp64 (Zdigits2 q + e') /\
  (F2R q e' <= x < F2R (q + 1) e')%R /\
  (l = loc_Exact <-> x = F2R q e').
Proof.
  intros H1 H2. unfold SFdiv_core_binary.
  set (d1 := Zdigits2 m1). set (d2 := Zdigits2 m2).
  set (e' := Z.min (fexp64 (d1 + e1 - (d2 + e2))) (e1 - e2)).
  set (s := e1 - e2 - e').
  assert (Hs : 0 <= s) by (unfold s, e'; lia).
  set (m' := match s with Z.pos _ => Z.shiftl m1 s | 0 => m1 | Z.neg _ => 0 end).
  assert (Em' : m' = m1 * 2 ^ s).
  { unfold m'. destruct s as [|p|p] eqn:Es; [cbn; lia | | lia].
    apply Z.shiftl_mul_pow2. lia. }
  clearbody m'.
  pose proof (Z_div_mod m' m2 ltac:(lia)) as D.
  destruct (Z.div_eucl m' m2) as [q r]. destruct D as [Dq Dr].
  assert (P : 0 < 2 ^ s) by (apply Z.pow_pos_nonneg; lia).
  assert (Hq : 0 <= q) by nia.
  cbv zeta.
  assert (Ex : (F2R m1 e1 / F2R m2 e2 = (IZR q + IZR r / IZR m2) * bpow e')%R).
  { replace e1 with ((e' + e2) + s) by (unfold s; lia).
    rewrite <- F2R_shift, <- Em', Dq by lia. unfold F2R.
    rewrite plus_IZR, mult_IZR, bpow_add.
    pose proof (bpow_pos e2). pose proof (bpow_pos e').
    assert (0 < IZR m2)%R by (apply IZR_lt; lia).
    field. split; lra. }
  rewrite Ex.
  assert (M2 : (0 < IZR m2)%R) by (apply IZR_lt; lia).
  assert (Rr : (0 <= IZR r < IZR m2)%R) by (split; [apply IZR_le | apply IZR_lt]; lia).
  assert (T : (0 <= IZR r / IZR m2 < 1)%R).
  { split.
    - apply Rmult_le_pos; [lra|]. apply Rlt_le, Rinv_0_lt_compat, M2.
    - apply (Rmult_lt_reg_r (IZR m2)); [exact M2|].
      unfold Rdiv. rewrite Rmult_assoc, Rinv_l by lra. lra. }
  pose proof (bpow_pos e') as B.
  split; [exact Hq|]. split; [|split].
  - (* the quotient has enough digits *)
    pose proof (Zdigits2_bounds m1 H1) as [L1 _]. fold d1 in L1.
    pose proof (Zdigits2_bounds m2 H2) as [_ U2]. fold d2 in U2.
    pose proof (Zdigits2_succ_le q Hq) as Uq.
    pose proof (Zdigits2_nonneg q) as Nq.
    assert (D1 : 0 < d1).
    { destruct (Z_lt_le_dec 0 d1); [assumption|]. unfold d1 in *.
      destruct m1; cbn in *; lia. }
    assert (D2 : 0 < d2).
    { destruct (Z_lt_le_dec 0 d2); [assumption|]. unfold d2 in *.
      destruct m2; cbn in *; lia. }
    assert (K : 2 ^ (d1 - 1 + s) < 2 ^ (Zdigits2 q + d2)).
    { rewrite !Z.pow_add_r by lia.
      assert (0 < 2 ^ (d1 - 1)) by (apply Z.pow_pos_nonneg; lia).
      assert (0 < 2 ^ d2) by (apply Z.pow_pos_nonneg; lia).
      assert (0 < 2 ^ Zdigits2 q) by (apply Z.pow_pos_nonneg; lia).
      nia. }
    apply Z.pow_lt_mono_r_iff in K; [|lia|lia].
    unfold s, e' in K |- *. unfold fexp, emin in K |- *. lia.
  - unfold F2R. rewrite plus_IZR. nra.
  - rewrite new_location_exact. unfold F2R. split.
    + intros ->. unfold Rdiv. rewrite Rmult_0_l. ring.
    + intros E. assert (IZR r / IZR m2 = 0)%R by nra.
      apply eq_IZR. unfold Rdiv in H.
      apply Rmult_integral in H. destruct H as [H|H]; [exact H|].
      pose proof (Rinv_0_lt_compat _ M2). lra.
Qed.

Lemma F2R_pos p e : (0 < F2R (Z.pos p) e)%R.
Proof.
  pose proof (F2R_lt 0 (Z.pos p) e ltac:(lia)) as H. rewrite F2R_0 in H. exact H.
Qed.

Lemma SFdiv_bounds x sy my ey slo shi :
  float64.is_finite x = true -> sformat slo -> sformat shi ->
  (slo <= SF2R x / SF2R (S754_finite sy my ey) <= shi)%R ->
  float64.is_finite (SFdiv 53 1024 x (S754_finite sy my ey)) = true /\
  (slo <= SF2R (SFdiv 53 1024 x (S754_finite sy my ey)) <= shi)%R.
Proof.
  intros Fx Slo Shi Hb.
  destruct x as [sx|sx| |sx mx ex]; try discriminate.
  - cbn [SFdiv]. split; [reflexivity|]. cbn [SF2R] in *.
    unfold Rdiv in Hb. rewrite Rmult_0_l in Hb. exact Hb.
  - cbn [SFdiv].
    pose proof (SFdiv_core_binary_spec (Z.pos mx) ex (Z.pos my) ey
                  ltac:(lia) ltac:(lia)) as S.
    destruct (SFdiv_core_binary 53 1024 (Z.pos mx) ex (Z.pos my) ey) as [[q e'] l].
    cbv zeta in S. destruct S as (Hq & He & Hx & Hl).
    apply (binary_round_aux_real (xorb sx sy) q e' l _ slo shi Hq He Hx Hl Slo Shi).
    cbn [SF2R] in Hb. rewrite !F2R_cond_Zopp in Hb.
    pose proof (F2R_pos my ey) as Py.
    replace (if xorb sx sy
             then (- (F2R (Z.pos mx) ex / F2R (Z.pos my) ey))%R
             else (F2R (Z.pos mx) ex / F2R (Z.pos my) ey)%R)
      with ((if sx then - F2R (Z.pos mx) ex else F2R (Z.pos mx) ex) /
            (if sy then - F2R (Z.pos my) ey else F2R (Z.pos my) ey))%R;
      [exact Hb|].
    destruct sx, sy; cbn [xorb]; field; lra.
Qed.

(** *** Conversion to an integer *)
Lemma F2R_int k : F2R k 0 = IZR k.
Proof. unfold F2R. change (bpow 0) with 1%R. ring. Qed.

Lemma trunc_pos_bounds m e :
  (IZR (float64.trunc false m e) <= F2R (Z.pos m) e < IZR (float64.trunc false m e) + 1)%R.
Proof.
  unfold float64.trunc. destruct (Z.leb_spec 0 e) as [He|He].
  - replace (F2R (Z.pos m) e) with (IZR (Z.pos m * 2 ^ e)).
    + lra.
    + unfold F2R. rewrite mult_IZR, bpow_IZR by lia. reflexivity.
  - assert (P : 0 < 2 ^ (- e)) by (apply Z.pow_pos_nonneg; lia).
    pose proof (Z.div_mod (Z.pos m) (2 ^ (- e)) ltac:(lia)) as D.
    pose proof (Z.mod_pos_bound (Z.pos m) (2 ^ (- e)) P) as Bm.
    set (a := Z.pos m / 2 ^ (- e)) in *.
    assert (Hz : a * 2 ^ (- e) <= Z.pos m < (a + 1) * 2 ^ (- e)) by lia.
    pose proof (F2R_truncate (Z.pos m) e (- e) a ltac:(lia) Hz) as T.
    replace (e + - e) with 0 in T by lia.
    rewrite !F2R_int, plus_IZR in T. lra.
Qed.

End Binary64.

(** ** The day count of the job *)

Section DayCount.

Local Open Scope Z_scope.

Lemma F2R_neg_exp m n : 0 <= n -> F2R m (- n) = (IZR m / IZR (2 ^ n))%R.
Proof.
  intros Hn. unfold F2R, bpow. rewrite powerRZ_neg'.
  fold (bpow n). rewrite bpow_IZR by exact Hn. reflexivity.
Qed.

Lemma sformat_F2R m e :
  Z.abs m < 2 ^ 53 -> -1074 <= e <= 971 -> sformat (F2R m e).
Proof.
  intros Hm He. destruct (Z_le_gt_dec 0 m) as [H|H].
  - left. exists m, e. repeat split; lia.
  - right. exists (- m), e. repeat split; try lia.
    unfold F2R. rewrite opp_IZR. ring.
Qed.

Lemma sformat_IZR z : Z.abs z < 2 ^ 53 -> sformat (IZR z).
Proof. intros H. rewrite <- F2R_int. apply sformat_F2R; lia. Qed.

Lemma of_int_bounds z slo shi :
  sformat slo -> sformat shi -> (slo <= IZR z <= shi)%R ->
  float64.is_finite (float64.of_int z) = true /\
  (slo <= SF2R (float64.of_int z) <= shi)%R.
Proof.
  intros Slo Shi Hb. apply binary_normalize_bounds; try assumption.
  rewrite F2R_int. exact Hb.
Qed.

Lemma of_int_hour_ns :
  float64.of_int (60 * 60 * 1000000000) = S754_finite false 7372800000000000 (-11).
Proof. reflexivity. Qed.

Lemma of_int_24 : float64.of_int 24 = S754_finite false 6755399441055744 (-48).
Proof. reflexivity. Qed.

Lemma SF2R_hour_ns :
  SF2R (S754_finite false 7372800000000000 (-11)) = 3600000000000%R.
Proof.
  cbn [SF2R cond_Zopp]. rewrite (F2R_neg_exp _ 11) by lia.
  change (2 ^ 11) with 2048. lra.
Qed.

Lemma SF2R_24 : SF2R (S754_finite false 6755399441055744 (-48)) = 24%R.
Proof.
  cbn [SF2R cond_Zopp]. rewrite (F2R_neg_exp _ 48) by lia.
  change (2 ^ 48) with 281474976710656. lra.
Qed.

(** The float [d.Hours() / 24], followed through its four roundings. *)
Lemma Hours_div_24_bounds d hlo hhi nlo nhi qlo qhi slo shi rlo rhi :
  hlo <= Z.quot d time.Hour <= hhi ->
  nlo <= Z.rem d time.Hour <= nhi ->
  sformat (IZR hlo) -> sformat (IZR hhi) ->
  sformat (IZR nlo) -> sformat (IZR nhi) ->
  sformat qlo -> sformat qhi -> sformat slo -> sformat shi ->
  sformat rlo -> sformat rhi ->
  (qlo <= IZR nlo / 3600000000000)%R -> (IZR nhi / 3600000000000 <= qhi)%R ->
  (slo <= IZR hlo + qlo)%R -> (IZR hhi + qhi <= shi)%R ->
  (rlo <= slo / 24)%R -> (shi / 24 <= rhi)%R ->
  float64.is_finite (float64.div (time.Hours d) (float64.of_int 24)) = true /\
  (rlo <= SF2R (float64.div (time.Hours d) (float64.of_int 24)) <= rhi)%R.
Proof.
  intros Hh Hn Fhl Fhh Fnl Fnh Fql Fqh Fsl Fsh Frl Frh Q1 Q2 S1 S2 R1 R2.
  unfold time.Hours. rewrite of_int_hour_ns, of_int_24.
  destruct (of_int_bounds (Z.quot d time.Hour) (IZR hlo) (IZR hhi) Fhl Fhh)
    as [Fh Bh].
  { split; apply IZR_le; lia. }
  destruct (of_int_bounds (Z.rem d time.Hour) (IZR nlo) (IZR nhi) Fnl Fnh)
    as [Fn Bn].
  { split; apply IZR_le; lia. }
  set (fh := float64.of_int (Z.quot d time.Hour)) in *.
  set (fn := float64.of_int (Z.rem d time.Hour)) in *.
  destruct (SFdiv_bounds fn false 7372800000000000 (-11) qlo qhi Fn Fql Fqh)
    as [Fq Bq].
  { rewrite SF2R_hour_ns. lra. }
  set (q := SFdiv 53 1024 fn (S754_finite false 7372800000000000 (-11))) in *.
  destruct (SFadd_bounds fh q slo shi Fh Fq Fsl Fsh) as [Fs Bs]; [lra|].
  set (s := SFadd 53 1024 fh q) in *.
  destruct (SFdiv_bounds s false 6755399441055744 (-48) rlo rhi Fs Frl Frh)
    as [Fr Br].
  { rewrite SF2R_24. lra. }
  split; [exact Fr | exact Br].
Qed.

Lemma to_int_lt f k :
  float64.is_finite f = true -> 0 < k -> (SF2R f < IZR k)%R ->
  float64.to_int f < k.
Proof.
  intros Ff Hk Hv. assert (Hmin : minInt64 < k) by (unfold minInt64; lia).
  destruct f as [s|s| |s m e]; try discriminate; cbn [float64.to_int]; [lia|].
  assert (float64.trunc s m e < k).
  { destruct s.
    - unfold float64.trunc.
      assert (0 <= (if 0 <=? e then Z.pos m * 2 ^ e else Z.pos m / 2 ^ (- e))).
      { destruct (Z.leb_spec 0 e);
          [|apply Z.div_pos; [lia|apply Z.pow_pos_nonneg; lia]].
        apply Z.mul_nonneg_nonneg; [lia|]. apply Z.pow_nonneg. lia. }
      lia.
    - pose proof (trunc_pos_bounds m e) as [T _]. cbn [SF2R cond_Zopp] in Hv.
      apply lt_IZR. lra. }
  destruct (inInt64 (float64.trunc s m e)); lia.
Qed.

Lemma to_int_ge f k :
  float64.is_finite f = true -> 0 < k ->
  (IZR k <= SF2R f <= IZR maxInt64)%R ->
  k <= float64.to_int f.
Proof.
  intros Ff Hk [Hv Hmax].
  assert (K : (0 < IZR k)%R) by (apply IZR_lt; lia).
  destruct f as [s|s| |s m e]; try discriminate; cbn [float64.to_int].
  - cbn in Hv. lra.
  - destruct s.
    + cbn [SF2R] in Hv. rewrite F2R_cond_Zopp in Hv.
      pose proof (F2R_pos m e). lra.
    + cbn [SF2R cond_Zopp] in Hv, Hmax.
      pose proof (trunc_pos_bounds m e) as [T1 T2].
      assert (k <= float64.trunc false m e).
      { assert (k < float64.trunc false m e + 1); [|lia].
        apply lt_IZR. rewrite plus_IZR. lra. }
      assert (float64.trunc false m e <= maxInt64) by (apply le_IZR; lra).
      replace (inInt64 (float64.trunc false m e)) with true; [assumption|].
      symmetry. unfold inInt64. apply andb_true_iff.
      split; apply Z.leb_le; unfold minInt64 in *; lia.
Qed.

Lemma quot_rem_Hour d :
  d = time.Hour * Z.quot d time.Hour + Z.rem d time.Hour /\
  (0 <= d -> 0 <= Z.rem d time.Hour < time.Hour) /\
  (d <= 0 -> - time.Hour < Z.rem d time.Hour <= 0).
Proof.
  split; [apply Z.quot_rem'|]. split; intros H.
  - apply Z.rem_bound_pos; [exact H | reflexivity].
  - apply Z.rem_bound_pos_neg; [reflexivity | exact H].
Qed.

(** At four days or more the day count is at least 4. *)
Lemma days_float_late d :
  4 * Day <= d <= maxInt64 ->
  4 <= float64.to_int (float64.div (time.Hours d) (float64.of_int 24)).
Proof.
  intros Hd. destruct (quot_rem_Hour d) as (E & Rp & _).
  unfold Day, maxInt64 in Hd. change time.Hour with 3600000000000 in *.
  specialize (Rp ltac:(lia)).
  destruct (Hours_div_24_bounds d 96 4194304 0 3599999999999
              0 1 96 8388608 4 8388608) as [Ff Bf];
    try (apply sformat_IZR; reflexivity); try lra;
    try (change time.Hour with 3600000000000; lia).
  apply to_int_ge; [exact Ff | lia |]. unfold maxInt64. 
  change (2 ^ 63 - 1) with 9223372036854775807. lra.
Qed.

(** Below four days, and not expired, it is at most 3. *)
Lemma days_float_soon d :
  0 <= d < 4 * Day ->
  float64.to_int (float64.div (time.Hours d) (float64.of_int 24)) <= 3.
Proof.
  intros Hd. destruct (quot_rem_Hour d) as (E & Rp & _).
  unfold Day in Hd. change time.Hour with 3600000000000 in *.
  specialize (Rp ltac:(lia)).
  assert (V1 : F2R 4398046511103 (-42) = (4398046511103 / 4398046511104)%R)
    by (rewrite (F2R_neg_exp _ 42) by lia; reflexivity).
  assert (V2 : F2R 422212465065983 (-42) = (422212465065983 / 4398046511104)%R)
    by (rewrite (F2R_neg_exp _ 42) by lia; reflexivity).
  assert (V3 : F2R 562949953421311 (-47) = (562949953421311 / 140737488355328)%R)
    by (rewrite (F2R_neg_exp _ 47) by lia; reflexivity).
  destruct (Hours_div_24_bounds d 0 95 0 3599999999999
              0 (F2R 4398046511103 (-42)) 0 (F2R 422212465065983 (-42))
              0 (F2R 562949953421311 (-47))) as [Ff Bf];
    try (apply sformat_IZR; reflexivity);
    try (apply sformat_F2R; [reflexivity | lia]);
    try (change time.Hour with 3600000000000; lia);
    try (rewrite ?V1, ?V2, ?V3; lra).
  assert (float64.to_int (float64.div (time.Hours d) (float64.of_int 24)) < 4);
    [|lia].
  apply to_int_lt; [exact Ff | lia |]. rewrite V3 in Bf. lra.
Qed.

(** Once expired, it is at most 0. *)
Lemma days_float_expired d :
  minInt64 <= d <= 0 ->
  float64.to_int (float64.div (time.Hours d) (float64.of_int 24)) <= 0.
Proof.
  intros Hd. destruct (quot_rem_Hour d) as (E & _ & Rn).
  unfold minInt64 in Hd. change time.Hour with 3600000000000 in *.
  specialize (Rn ltac:(lia)).
  destruct (Hours_div_24_bounds d (-4194304) 0 (-3599999999999) 0
              (-1) 0 (-8388608) 0 (-8388608) 0) as [Ff Bf];
    try (apply sformat_IZR; reflexivity); try lra;
    try (change time.Hour with 3600000000000; lia).
  assert (float64.to_int (float64.div (time.Hours d) (float64.of_int 24)) < 1);
    [|lia].
  apply to_int_lt; [exact Ff | lia | lra].
Qed.

Lemma Sub_range t u : minInt64 <= time.Sub t u <= maxInt64.
Proof.
  unfold time.Sub, time.minDuration, time.maxDuration.
  destruct (Z.ltb_spec (t - u) minInt64); [unfold minInt64, maxInt64; lia|].
  destruct (Z.ltb_spec maxInt64 (t - u)); [unfold minInt64, maxInt64; lia|]. lia.
Qed.

Lemma Sub_lt_4_days t u : time.Sub t u < 4 * Day <-> t - u < 4 * Day.
Proof.
  unfold time.Sub, time.minDuration, time.maxDuration, Day.
  change time.Hour with 3600000000000.
  destruct (Z.ltb_spec (t - u) minInt64); [unfold minInt64 in *; lia|].
  destruct (Z.ltb_spec maxInt64 (t - u)); [unfold maxInt64 in *; lia|]. lia.
Qed.

Lemma Sub_nonpos t u : time.Sub t u <= 0 <-> t - u <= 0.
Proof.
  unfold time.Sub, time.minDuration, time.maxDuration.
  destruct (Z.ltb_spec (t - u) minInt64); [unfold minInt64 in *; lia|].
  destruct (Z.ltb_spec maxInt64 (t - u)); [unfold maxInt64 in *; lia|]. lia.
Qed.

(** The job's day count is at most 3 exactly when less than four days are
    left. *)
Lemma daysLeft_le_3 expiry now :
  daysLeft expiry now <= 3 <-> expiry - now < 4 * Day.
Proof.
  unfold daysLeft. rewrite <- Sub_lt_4_days.
  pose proof (Sub_range expiry now) as [Hlo Hhi].
  set (d := time.Sub expiry now) in *.
  destruct (Z_lt_le_dec d (4 * Day)) as [Hlt|Hge].
  - split; [intros _; exact Hlt | intros _].
    destruct (Z_lt_le_dec d 0) as [Hneg|Hpos].
    + pose proof (days_float_expired d ltac:(lia)). lia.
    + apply days_float_soon. lia.
  - pose proof (days_float_late d ltac:(lia)). lia.
Qed.

Lemma truncated_days_le_3 expiry now :
  truncated_days expiry now <= 3 <-> expiry - now < 4 * Day.
Proof.
  unfold truncated_days. set (d := expiry - now).
  assert (HD : 0 < Day) by reflexivity.
  pose proof (Z.quot_rem' d Day) as E.
  destruct (Z_lt_le_dec d 0) as [Hneg|Hpos].
  - pose proof (Z.rem_bound_pos_neg d Day HD ltac:(lia)) as B.
    split; [intros _; lia | intros _; nia].
  - pose proof (Z.rem_bound_pos d Day Hpos HD) as B.
    split; intros H; nia.
Qed.

(** The float of the day count is a finite number of at most 2^23 in
    magnitude: its conversion to an int never leaves the range in which the
    conversion is the truncation. *)
Lemma days_float_range d :
  minInt64 <= d <= maxInt64 ->
  float64.is_finite (float64.div (time.Hours d) (float64.of_int 24)) = true /\
  (-8388608 <= SF2R (float64.div (time.Hours d) (float64.of_int 24))
   <= 8388608)%R.
Proof.
  intros Hd. destruct (quot_rem_Hour d) as (E & Rp & Rn).
  unfold minInt64, maxInt64 in Hd. change time.Hour with 3600000000000 in *.
  destruct (Z_lt_le_dec d 0) as [Hneg|Hpos].
  - specialize (Rn ltac:(lia)).
    destruct (Hours_div_24_bounds d (-4194304) 0 (-3599999999999) 0
                (-1) 0 (-8388608) 0 (-8388608) 0) as [Ff Bf];
      try (apply sformat_IZR; reflexivity); try lra;
      try (change time.Hour with 3600000000000; lia).
    split; [exact Ff | lra].
  - specialize (Rp Hpos).
    destruct (Hours_div_24_bounds d 0 4194304 0 3599999999999
                0 1 0 8388608 0 8388608) as [Ff Bf];
      try (apply sformat_IZR; reflexivity); try lra;
      try (change time.Hour with 3600000000000; lia).
    split; [exact Ff | lra].
Qed.

Lemma to_int_in_range s m e :
  (-8388608 <= SF2R (S754_finite s m e) <= 8388608)%R ->
  float64.to_int (S754_finite s m e) = float64.trunc s m e.
Proof.
  intros Hb. cbn [float64.to_int].
  pose proof (trunc_pos_bounds m e) as [T _].
  pose proof (F2R_pos m e) as P.
  assert (H0 : 0 <= float64.trunc false m e).
  { unfold float64.trunc. destruct (Z.leb_spec 0 e);
      [|apply Z.div_pos; [lia|apply Z.pow_pos_nonneg; lia]].
    apply Z.mul_nonneg_nonneg; [lia|]. apply Z.pow_nonneg. lia. }
  assert (H1 : float64.trunc false m e <= 8388608).
  { apply le_IZR. cbn [SF2R] in Hb. rewrite F2R_cond_Zopp in Hb.
    destruct s; lra. }
  assert (Hs : float64.trunc s m e = float64.trunc false m e \/
               float64.trunc s m e = - float64.trunc false m e)
    by (unfold float64.trunc; destruct s; auto).
  replace (inInt64 (float64.trunc s m e)) with true; [reflexivity|].
  symmetry. unfold inInt64, minInt64, maxInt64.
  apply andb_true_iff. split; apply Z.leb_le; lia.
Qed.

(** Far from the threshold the job's day count is not always the integer
    division that truncates: for a product that expired 171 days less one
    nanosecond ago the sum of [Hours] rounds to 171 days exactly, where the
    integer division gives 170. *)
Lemma daysLeft_is_not_the_integer_division :
  daysLeft (noon - 171 * Day + 1) noon = -171 /\
  truncated_days (noon - 171 * Day + 1) noon = -170.
Proof. split; reflexivity. Qed.

End DayCount.

(** ** The loops of the job *)

Section Loops.

Local Open Scope string_scope.

Lemma append_assoc (a b c : string) : (a ++ b) ++ c = a ++ b ++ c.
Proof. induction a as [|x a IH]; cbn; [reflexivity | rewrite IH; reflexivity]. Qed.

Lemma append_nil_r (a : string) : a ++ "" = a.
Proof. induction a as [|x a IH]; cbn; [reflexivity | rewrite IH; reflexivity]. Qed.

Lemma lines_app l1 l2 : lines (l1 ++ l2) = lines l1 ++ lines l2.
Proof.
  induction l1 as [|p l1 IH]; cbn [lines List.app]; [reflexivity|].
  rewrite IH, append_assoc. reflexivity.
Qed.

(** The inner loop appends, in the order of the products, the description of
    each product that qualifies. *)
Lemma expiring_of_filter now ps :
  expiring_of now ps = map (description now) (filter (qualifies now) ps).
Proof.
  unfold expiring_of.
  enough (G : forall acc,
    fold_left
      (fun expiring p =>
         let days := daysLeft (Product.Expiry p) now in
         if (days <=? 3)%Z
         then (expiring ++ [describe (Product.Name p) days])%list
         else expiring) ps acc
    = (acc ++ map (description now) (filter (qualifies now) ps))%list)
    by apply (G []).
  induction ps as [|p ps IH]; intros acc; cbn [fold_left filter map].
  - rewrite app_nil_r. reflexivity.
  - rewrite IH. unfold qualifies at 2. cbv zeta.
    destruct (daysLeft (Product.Expiry p) now <=? 3)%Z; [|reflexivity].
    cbn [map]. rewrite <- app_assoc. reflexivity.
Qed.

(** The text of a message: the heading, then one line per description. *)
Lemma mail_body_lines l : mail_body l = heading ++ lines l.
Proof.
  unfold mail_body. fold heading. generalize heading as acc.
  induction l as [|p l IH]; intros acc; cbn [fold_left lines].
  - rewrite append_nil_r. reflexivity.
  - rewrite IH. unfold line. rewrite !append_assoc. reflexivity.
Qed.

Lemma deliver_app faults a b :
  deliver faults (a ++ b) =
  (deliver faults a ++ deliver (skipn (List.length a) faults) b)%list.
Proof.
  revert faults. induction a as [|m a IH]; intros faults; cbn [deliver List.app List.length].
  - reflexivity.
  - rewrite IH. destruct faults; cbn; [rewrite skipn_nil|]; reflexivity.
Qed.

Lemma deliver_fst faults ms : map fst (deliver faults ms) = ms.
Proof.
  revert faults. induction ms as [|m ms IH]; intros faults; cbn; [reflexivity|].
  rewrite IH. reflexivity.
Qed.

Lemma delivered_nil w : delivered [] w w.
Proof.
  unfold delivered. cbn. rewrite app_nil_r. repeat split.
  exists []. rewrite app_nil_r.
  split; [reflexivity|]. split; [reflexivity | intros m e []].
Qed.

Lemma delivered_trans a b w w' w'' :
  delivered a w w' -> delivered b w' w'' -> delivered (a ++ b) w w''.
Proof.
  intros (O1 & F1 & D1 & S1 & W1 & T1 & G1 & l1 & L1 & N1 & X1)
         (O2 & F2 & D2 & S2 & W2 & T2 & G2 & l2 & L2 & N2 & X2).
  unfold delivered. rewrite deliver_app.
  repeat split; try congruence.
  - rewrite O2, O1, F1, app_assoc. reflexivity.
  - rewrite F2, F1, length_app, skipn_skipn, Nat.add_comm. reflexivity.
  - exists (l1 ++ l2)%list. split; [|split].
    + rewrite L2, L1, app_assoc. reflexivity.
    + intros H. apply app_eq_nil in H. destruct H as [Ha Hb].
      rewrite (N1 Ha), (N2 Hb). reflexivity.
    + intros m e H. apply in_app_iff in H. apply in_app_iff.
      destruct H as [H|H]; [left; apply (X1 m e H)|right].
      rewrite <- F1 in H. apply (X2 m e H).
Qed.

Lemma messages_expiring now u :
  messages now u =
  match expiring_of now (User.Products u) with
  | [] => []
  | l => [new_message (User.Email u) l]
  end.
Proof.
  unfold messages. rewrite expiring_of_filter.
  destruct (filter (qualifies now) (User.Products u)); reflexivity.
Qed.

(** One turn of the outer loop. *)
Lemma notify_delivered now u w :
  delivered (messages now u) w (run (notify now u) w).
Proof.
  rewrite messages_expiring. unfold notify.
  destruct (expiring_of now (User.Products u)) as [|d l] eqn:E.
  - cbn. apply delivered_nil.
  - cbn [List.length Nat.ltb Nat.leb].
    unfold delivered, run, bind, log_Println, sendEmailToUser, bind, DialAndSend.
    cbn [deliver hd tl List.length skipn fst snd outbox smtp_faults db sql_faults
         wall ticks log engine].
    destruct (hd None (smtp_faults w)) as [e|] eqn:Eh;
      unfold log_Println;
      cbn [snd outbox smtp_faults db sql_faults wall ticks log engine];
      (split; [reflexivity|]); (split; [reflexivity|]); (split; [reflexivity|]);
      (split; [reflexivity|]); (split; [reflexivity|]); (split; [reflexivity|]);
      (split; [reflexivity|]).
    + eexists. split; [rewrite <- app_assoc; reflexivity|].
      split; [discriminate|].
      intros m e' [H|[]]. inversion H; subst. right. left. reflexivity.
    + eexists. split; [rewrite <- app_assoc; reflexivity|].
      split; [discriminate|].
      intros m e' [H|[]]. inversion H.
Qed.

(** The outer loop. *)
Lemma forM_notify_delivered now us w :
  delivered (flat_map (messages now) us) w (run (forM_ us (notify now)) w).
Proof.
  revert w. induction us as [|u us IH]; intros w; cbn [flat_map forM_].
  - apply delivered_nil.
  - apply (delivered_trans _ _ w (run (notify now u) w)).
    + apply notify_delivered.
    + specialize (IH (run (notify now u) w)).
      unfold run, bind in *. destruct (notify now u w) as [[] w1]. exact IH.
Qed.

End Loops.

(** ** A run of the job *)

Section Run.

Local Open Scope string_scope.

(** The read of the job depends on the store and on the outcomes of its
    statements only, and changes nothing but the schedule of outcomes. *)
Lemma Preload_frame w :
  exists r f',
    forall w2, db w2 = db w -> sql_faults w2 = sql_faults w ->
      gorm.Preload_Products_Find w2 =
      (r, mkWorld (db w2) f' (wall w2) (ticks w2) (smtp_faults w2)
                  (outbox w2) (log w2) (engine w2)).
Proof.
  unfold gorm.Preload_Products_Find, bind, gorm.exec, gorm.get_db, ret.
  destruct (hd SqlOk (sql_faults w)) as [|msg n] eqn:E1;
    [destruct (users (db w)) as [|r0 rs] eqn:E2;
     [|destruct (hd SqlOk (tl (sql_faults w))) as [|msg n] eqn:E3]|];
    eexists; eexists; intros w2 Hd Hf;
    cbn [db sql_faults]; rewrite ?Hf, ?Hd, ?E1, ?E2;
    cbn [db sql_faults wall ticks smtp_faults outbox log engine]; rewrite ?E3;
    reflexivity.
Qed.

(** A run of the job: the clock is read once, after the store, and the
    messages of the run are those of the users read, at that one reading. *)
Lemma checkExpiryJob_run w :
  let now := wall w (ticks w) in
  let w' := run checkExpiryJob w in
  ticks w' = S (ticks w) /\ wall w' = wall w /\ db w' = db w /\
  new_outbox w w' =
    deliver (smtp_faults w) (flat_map (messages now) (loaded_users w)) /\
  exists ls,
    new_log w w' = "Running expiry check job..." :: ls /\
    (new_outbox w w' = [] -> ls = []) /\
    forall m e,
      In (m, Some e) (new_outbox w w') -> In ("❌ ส่งอีเมลผิดพลาด: " ++ e) ls.
Proof.
  intros now w'. destruct (Preload_frame w) as (r & f' & HP).
  assert (Hl : loaded_users w = fst r).
  { unfold loaded_users, result. rewrite (HP w eq_refl eq_refl). reflexivity. }
  set (w0 := mkWorld (db w) f' (wall w) (S (ticks w)) (smtp_faults w)
                     (outbox w) (log w ++ ["Running expiry check job..."])
                     (engine w)).
  assert (Ew : w' = run (forM_ (fst r) (notify now)) w0).
  { unfold w', checkExpiryJob, run, bind, log_Println. cbv beta iota.
    match goal with
    | |- context [gorm.Preload_Products_Find ?w1] =>
        rewrite (HP w1 eq_refl eq_refl)
    end.
    reflexivity. }
  rewrite Ew. clear Ew.
  pose proof (forM_notify_delivered now (fst r) w0) as D.
  set (w3 := run (forM_ (fst r) (notify now)) w0) in *.
  destruct D as (O & F & Dd & S & W & T & _ & ls & L & N & X).
  cbn [w0 db sql_faults wall ticks smtp_faults outbox log]
    in O, F, Dd, S, W, T, L, N, X.
  rewrite <- Hl in *.
  assert (No : new_outbox w w3 =
               deliver (smtp_faults w) (flat_map (messages now) (loaded_users w))).
  { unfold new_outbox. rewrite O, skipn_app, Nat.sub_diag, skipn_all. reflexivity. }
  repeat split; try assumption.
  exists ls. rewrite No. split; [|split; [|exact X]].
  - unfold new_log.
    rewrite L, <- app_assoc, !skipn_app, !Nat.sub_diag, !skipn_all.
    reflexivity.
  - intros H. apply N.
    apply (f_equal (map fst)) in H. rewrite deliver_fst in H. exact H.
Qed.

Lemma notification_messages now u :
  notification now u =
  map (fun m => (gomail.To m, gomail.Body m)) (messages now u).
Proof.
  unfold notification, messages.
  destruct (filter (qualifies now) (User.Products u)); reflexivity.
Qed.

Lemma checkExpiryJob_sent w :
  sent_since w (run checkExpiryJob w) =
  flat_map (notification (wall w (ticks w))) (loaded_users w).
Proof.
  destruct (checkExpiryJob_run w) as (_ & _ & _ & O & _).
  unfold sent_since. rewrite O. clear O.
  rewrite <- (map_map fst (fun m => (gomail.To m, gomail.Body m))), deliver_fst.
  induction (loaded_users w) as [|u us IH]; cbn [flat_map map]; [reflexivity|].
  rewrite map_app, IH, notification_messages. reflexivity.
Qed.

End Run.

(* ================================================================== *)
(** * Properties of the handlers and of the job *)

Section Program.

Local Open Scope string_scope.

(** ** Which products qualify *)

Lemma qualifies_truncated now p :
  qualifies now p = (truncated_days (Product.Expiry p) now <=? 3)%Z.
Proof.
  unfold qualifies.
  destruct (Z.leb_spec (daysLeft (Product.Expiry p) now) 3) as [H|H];
    destruct (Z.leb_spec (truncated_days (Product.Expiry p) now) 3) as [H'|H'];
    try reflexivity; exfalso.
  - apply daysLeft_le_3, truncated_days_le_3 in H. lia.
  - apply truncated_days_le_3, daysLeft_le_3 in H'. lia.
Qed.

Lemma notification_truncated now u :
  notification now u =
  match filter (fun p => (truncated_days (Product.Expiry p) now <=? 3)%Z)
               (User.Products u) with
  | [] => []
  | ps => [(User.Email u, mail_body (map (description now) ps))]
  end.
Proof.
  unfold notification.
  rewrite (filter_ext _ _ (qualifies_truncated now)). reflexivity.
Qed.

(** C1. In a run of the job the clock is read once, and that one reading
    [now] serves every comparison of the run: the messages of the run are
    those of the users read, each computed at [now].  A product is listed
    exactly when the day count by integer division truncating towards zero,
    [(expiry - now) / 24h], is at most 3: a product with more than 3 days
    left is never listed, and an expired product (zero or fewer days left)
    always is. *)
Theorem C1_one_reading_of_the_clock_and_three_days (w : World) :
  let now := wall w (ticks w) in
  let w' := run checkExpiryJob w in
  ticks w' = S (ticks w) /\
  sent_since w w' = flat_map (notification now) (loaded_users w) /\
  (forall u,
     notification now u =
     match filter (fun p => (truncated_days (Product.Expiry p) now <=? 3)%Z)
                  (User.Products u) with
     | [] => []
     | ps => [(User.Email u, mail_body (map (description now) ps))]
     end) /\
  (forall p, qualifies now p = true <->
             (truncated_days (Product.Expiry p) now <= 3)%Z) /\
  (forall p, (3 < truncated_days (Product.Expiry p) now)%Z ->
             qualifies now p = false) /\
  (forall p, (truncated_days (Product.Expiry p) now <= 0)%Z ->
             qualifies now p = true).
Proof.
  intros now w'.
  destruct (checkExpiryJob_run w) as (T & _).
  split; [exact T|]. split; [apply checkExpiryJob_sent|].
  split; [intros u; apply notification_truncated|].
  split; [|split]; intros p; rewrite qualifies_truncated.
  - apply Z.leb_le.
  - intros H. apply Z.leb_gt. exact H.
  - intros H. apply Z.leb_le. lia.
Qed.

Lemma C1_witness :
  let now := wall example_world (ticks example_world) in
  let rice := Product.mk 2 "Rice" (noon + 10 * Day) 1 noon in
  let eggs := Product.mk 3 "Eggs" (noon - Day) 1 noon in
  ((3 < truncated_days (Product.Expiry rice) now)%Z /\
   qualifies now rice = false) /\
  ((truncated_days (Product.Expiry eggs) now <= 0)%Z /\
   qualifies now eggs = true).
Proof.
  intros now rice eggs.
  pose proof (C1_one_reading_of_the_clock_and_three_days example_world)
    as (_ & _ & _ & _ & Hlate & Hexpired).
  split; split.
  - reflexivity.
  - apply Hlate. reflexivity.
  - discriminate.
  - apply Hexpired. discriminate.
Defined.

(** ** One message per user *)

Lemma occurs_line l1 d l2 : occurs (line d) (heading ++ lines (l1 ++ d :: l2)).
Proof.
  exists (heading ++ lines l1), (lines l2).
  rewrite lines_app. cbn [lines]. rewrite !append_assoc. reflexivity.
Qed.

Lemma occurs_in_lines d l : In d l -> occurs (line d) (heading ++ lines l).
Proof.
  intros H. apply in_split in H. destruct H as (l1 & l2 & ->).
  apply occurs_line.
Qed.

(** C2. In a run of the job the messages handed to the transport are, user
    after user, those of the users read: for a user with no product that
    qualifies there is none; for a user with N >= 1 products that qualify
    there is exactly one, addressed to the user's email, whose text is the
    heading followed by the N lines of the N descriptions, so that each of
    them occurs in it. *)
Theorem C2_exactly_one_message_per_user_with_expiring_products (w : World) :
  let now := wall w (ticks w) in
  let w' := run checkExpiryJob w in
  sent_since w w' = flat_map (notification now) (loaded_users w) /\
  forall u,
    let qs := filter (qualifies now) (User.Products u) in
    (qs = [] -> notification now u = []) /\
    (qs <> [] ->
     exists body,
       notification now u = [(User.Email u, body)] /\
       body = heading ++ lines (map (description now) qs) /\
       List.length (map (description now) qs) = List.length qs /\
       forall p, In p qs -> occurs (line (description now p)) body).
Proof.
  intros now w'. split; [apply checkExpiryJob_sent|].
  intros u qs. unfold notification. fold qs. split.
  - intros ->. reflexivity.
  - intros Hne. destruct qs as [|q qs'] eqn:E; [contradiction|].
    exists (mail_body (map (description now) (q :: qs'))).
    split; [reflexivity|]. split; [apply mail_body_lines|].
    split; [apply length_map|].
    intros p Hp. rewrite mail_body_lines. apply occurs_in_lines.
    apply in_map, Hp.
Qed.

Lemma C2_witness :
  let now := wall example_world (ticks example_world) in
  let a := User.mk 1 "A" "a@x.com" (products example_db) in
  let b := User.mk 2 "B" "b@x.com" [Product.mk 4 "Salt" (noon + 10 * Day) 2 noon] in
  (filter (qualifies now) (User.Products b) = [] /\ notification now b = []) /\
  (filter (qualifies now) (User.Products a) <> [] /\
   exists body, notification now a = [("a@x.com", body)]).
Proof.
  intros now a b.
  pose proof (C2_exactly_one_message_per_user_with_expiring_products
                example_world) as [_ H].
  split.
  - split; [reflexivity|]. apply (proj1 (H b)). reflexivity.
  - split; [discriminate|].
    destruct (proj2 (H a)) as (body & Hb & _); [discriminate|].
    exists body. exact Hb.
Defined.

(** ** Failures of the transport *)

Lemma loaded_users_with_smtp_faults faults w :
  loaded_users (with_smtp_faults faults w) = loaded_users w.
Proof.
  destruct (Preload_frame w) as (r & f' & HP). unfold loaded_users, result.
  rewrite (HP w eq_refl eq_refl), (HP (with_smtp_faults faults w) eq_refl eq_refl).
  reflexivity.
Qed.

(** C6. A delivery that fails is logged, and changes nothing else: whatever
    deliveries fail, a run hands the same messages, in the same order, to the
    transport, each with the outcome of its own delivery, and logs one line
    with the error of each failed delivery. *)
Theorem C6_a_failed_delivery_is_logged_and_isolated
  (w : World) (faults : list error) :
  let now := wall w (ticks w) in
  let w1 := run checkExpiryJob w in
  let wf := with_smtp_faults faults w in
  let w2 := run checkExpiryJob wf in
  new_outbox w w1 =
    deliver (smtp_faults w) (flat_map (messages now) (loaded_users w)) /\
  map fst (new_outbox wf w2) = map fst (new_outbox w w1) /\
  sent_since wf w2 = sent_since w w1 /\
  (forall m e, In (m, Some e) (new_outbox w w1) ->
               In ("❌ ส่งอีเมลผิดพลาด: " ++ e) (new_log w w1)).
Proof.
  intros now w1 wf w2.
  destruct (checkExpiryJob_run w) as (_ & _ & _ & O1 & ls & L1 & _ & X1).
  destruct (checkExpiryJob_run wf) as (_ & _ & _ & O2 & _).
  fold w1 in O1, L1, X1. fold w2 in O2.
  split; [exact O1|]. split; [|split].
  - rewrite O1, O2, !deliver_fst. unfold wf.
    rewrite loaded_users_with_smtp_faults. reflexivity.
  - unfold w1, w2. rewrite !checkExpiryJob_sent.
    unfold wf. rewrite loaded_users_with_smtp_faults. reflexivity.
  - intros m e H. rewrite L1. right. apply (X1 m e H).
Qed.

Lemma C6_witness :
  let w := example_world_smtp_down in
  let m := new_message "a@x.com" ["Milk (เหลือ 2 วัน)"; "Eggs (เหลือ -1 วัน)"] in
  In (m, Some "dial tcp: i/o timeout") (new_outbox w (run checkExpiryJob w)) /\
  In ("❌ ส่งอีเมลผิดพลาด: dial tcp: i/o timeout")
     (new_log w (run checkExpiryJob w)).
Proof.
  intros w m.
  assert (H : In (m, Some "dial tcp: i/o timeout")
                 (new_outbox w (run checkExpiryJob w))).
  { left. reflexivity. }
  split; [exact H|].
  exact (proj2 (proj2 (proj2
           (C6_a_failed_delivery_is_logged_and_isolated w []))) m _ H).
Defined.

(** ** The order of the descriptions *)

Lemma filter_nth_error_in {A} (f : A -> bool) l j y :
  nth_error (filter f l) j = Some y -> exists j', nth_error l j' = Some y.
Proof.
  intros H. apply nth_error_In, filter_In in H. destruct H as [H _].
  apply In_nth_error in H. exact H.
Qed.

(** Filtering keeps the order. *)
Lemma filter_keeps_order {A} (f : A -> bool) l i j x y :
  (i < j)%nat ->
  nth_error (filter f l) i = Some x -> nth_error (filter f l) j = Some y ->
  exists i' j',
    (i' < j')%nat /\ nth_error l i' = Some x /\ nth_error l j' = Some y.
Proof.
  revert i j. induction l as [|a l IH]; intros i j Hij Hi Hj; cbn [filter] in *.
  - destruct i; discriminate.
  - destruct (f a).
    + destruct j as [|j]; [lia|]. destruct i as [|i].
      * cbn in Hi, Hj. destruct (filter_nth_error_in f l j y Hj) as [j' Hj'].
        exists 0%nat, (S j'). repeat split; [lia | exact Hi | exact Hj'].
      * cbn in Hi, Hj.
        destruct (IH i j ltac:(lia) Hi Hj) as (i' & j' & H & Hi' & Hj').
        exists (S i'), (S j'). repeat split; [lia | exact Hi' | exact Hj'].
    + destruct (IH i j Hij Hi Hj) as (i' & j' & H & Hi' & Hj').
      exists (S i'), (S j'). repeat split; [lia | exact Hi' | exact Hj'].
Qed.

(** A read that succeeds gives every user the products of the store that the
    user owns, in the order of the store. *)
Lemma loaded_products_in_store_order w :
  read_error w = None ->
  Forall (fun u => User.Products u =
                   filter (gorm.owned_by (User.ID u)) (products (db w)))
         (loaded_users w).
Proof.
  unfold read_error, loaded_users, result, gorm.Preload_Products_Find,
    bind, gorm.exec, gorm.get_db, ret.
  cbn [db sql_faults fst snd].
  destruct (hd SqlOk (sql_faults w)) as [|msg n]; cbn [fst snd];
    [|discriminate].
  destruct (users (db w)) as [|r0 rs]; cbn [db sql_faults fst snd];
    [intros _; constructor|].
  destruct (hd SqlOk (tl (sql_faults w))) as [|msg n]; cbn [fst snd];
    [|discriminate].
  intros _. apply Forall_map, Forall_forall. intros r _. reflexivity.
Qed.

(** C7. The text of the message of a user is the heading followed by one
    line per description, and the descriptions (name and day count) are those
    of the products that qualify, in the order in which the products were
    loaded: of two descriptions, the earlier one is that of a product loaded
    earlier.  The products are loaded in the order of the store. *)
Theorem C7_descriptions_keep_the_order_of_the_products (w : World) :
  let now := wall w (ticks w) in
  sent_since w (run checkExpiryJob w) =
    flat_map (notification now) (loaded_users w) /\
  (read_error w = None ->
   Forall (fun u => User.Products u =
                    filter (gorm.owned_by (User.ID u)) (products (db w)))
          (loaded_users w)) /\
  forall u,
    let ps := User.Products u in
    expiring_of now ps = map (description now) (filter (qualifies now) ps) /\
    mail_body (expiring_of now ps) = heading ++ lines (expiring_of now ps) /\
    forall i j di dj,
      (i < j)%nat ->
      nth_error (expiring_of now ps) i = Some di ->
      nth_error (expiring_of now ps) j = Some dj ->
      exists i' j' pi pj,
        (i' < j')%nat /\
        nth_error ps i' = Some pi /\ nth_error ps j' = Some pj /\
        di = description now pi /\ dj = description now pj.
Proof.
  intros now. split; [apply checkExpiryJob_sent|].
  split; [apply loaded_products_in_store_order|].
  intros u ps. split; [apply expiring_of_filter|].
  split; [apply mail_body_lines|].
  intros i j di dj Hij Hi Hj. rewrite expiring_of_filter in Hi, Hj.
  rewrite nth_error_map in Hi, Hj.
  destruct (nth_error (filter (qualifies now) ps) i) as [pi|] eqn:Ei;
    [|discriminate].
  destruct (nth_error (filter (qualifies now) ps) j) as [pj|] eqn:Ej;
    [|discriminate].
  cbn in Hi, Hj. inversion Hi; inversion Hj; subst.
  destruct (filter_keeps_order _ _ _ _ _ _ Hij Ei Ej) as (i' & j' & H & Hi' & Hj').
  exists i', j', pi, pj. repeat split; assumption.
Qed.

Lemma C7_witness :
  let now := wall example_world (ticks example_world) in
  let ps := products example_db in
  (0 < 1)%nat /\
  nth_error (expiring_of now ps) 0 = Some "Milk (เหลือ 2 วัน)" /\
  nth_error (expiring_of now ps) 1 = Some "Eggs (เหลือ -1 วัน)" /\
  exists i' j' pi pj,
    (i' < j')%nat /\
    nth_error ps i' = Some pi /\ nth_error ps j' = Some pj /\
    "Milk (เหลือ 2 วัน)" = description now pi /\
    "Eggs (เหลือ -1 วัน)" = description now pj.
Proof.
  intros now ps.
  assert (H01 : (0 < 1)%nat) by (apply Nat.lt_0_succ).
  assert (H0 : nth_error (expiring_of now ps) 0 = Some "Milk (เหลือ 2 วัน)")
    by reflexivity.
  assert (H1 : nth_error (expiring_of now ps) 1 = Some "Eggs (เหลือ -1 วัน)")
    by reflexivity.
  split; [exact H01|]. split; [exact H0|]. split; [exact H1|].
  exact (proj2 (proj2 (proj2 (proj2
           (C7_descriptions_keep_the_order_of_the_products example_world))
           (User.mk 1 "A" "a@x.com" ps))) 0%nat 1%nat _ _ H01 H0 H1).
Defined.

(** ** Determinism *)

(** C10. The notifications of a run are a function of the users read, with
    their products, and of the reading of the clock: two runs that read the
    same users at the same time hand the same sequence of recipients and
    texts to the transport, whatever else differs between their worlds (the
    log, the messages sent before, the deliveries that fail). *)
Theorem C10_notifications_are_deterministic (w1 w2 : World) :
  loaded_users w1 = loaded_users w2 ->
  wall w1 (ticks w1) = wall w2 (ticks w2) ->
  sent_since w1 (run checkExpiryJob w1) = sent_since w2 (run checkExpiryJob w2).
Proof.
  intros Hu Hn. rewrite !checkExpiryJob_sent, Hu, Hn. reflexivity.
Qed.

Lemma C10_witness :
  loaded_users example_world = loaded_users example_world_smtp_down /\
  wall example_world (ticks example_world) =
    wall example_world_smtp_down (ticks example_world_smtp_down) /\
  sent_since example_world (run checkExpiryJob example_world) =
    sent_since example_world_smtp_down
               (run checkExpiryJob example_world_smtp_down).
Proof.
  split; [reflexivity|]. split; [reflexivity|].
  apply (C10_notifications_are_deterministic
           example_world example_world_smtp_down); reflexivity.
Defined.

(** ** Failures of the store *)

Lemma scan_no_products rows :
  Forall (fun u => User.Products u = []) (map gorm.scan rows).
Proof. apply Forall_map, Forall_forall. intros r _. reflexivity. Qed.

(** A read that fails leaves every user it gives without products. *)
Lemma failed_read_no_products w :
  read_error w <> None ->
  Forall (fun u => User.Products u = []) (loaded_users w).
Proof.
  unfold read_error, loaded_users, result, gorm.Preload_Products_Find,
    bind, gorm.exec, gorm.get_db, ret.
  cbn [db sql_faults fst snd].
  destruct (hd SqlOk (sql_faults w)) as [|msg n]; cbn [fst snd].
  - destruct (users (db w)) as [|r0 rs]; cbn [db sql_faults fst snd];
      [intros _; constructor|].
    destruct (hd SqlOk (tl (sql_faults w))) as [|msg n]; cbn [fst snd].
    + intros H. exfalso. apply H. reflexivity.
    + intros _. apply scan_no_products.
  - intros _. apply scan_no_products.
Qed.

Lemma no_products_no_notification now us :
  Forall (fun u => User.Products u = []) us ->
  flat_map (notification now) us = [].
Proof.
  induction 1 as [|u us Hu _ IH]; cbn [flat_map]; [reflexivity|].
  rewrite IH. unfold notification. rewrite Hu. reflexivity.
Qed.

Lemma next_id_above ids x : In x ids -> (x < gorm.next_id ids)%N.
Proof.
  unfold gorm.next_id. induction ids as [|y ids IH]; cbn [fold_right In].
  - intros [].
  - intros [->|H]; [lia|]. specialize (IH H). lia.
Qed.

Lemma next_id_fresh ids : existsb (N.eqb (gorm.next_id ids)) ids = false.
Proof.
  destruct (existsb (N.eqb (gorm.next_id ids)) ids) eqn:E; [|reflexivity].
  apply existsb_exists in E. destruct E as (x & Hx & Ex).
  apply N.eqb_eq in Ex. apply next_id_above in Hx. lia.
Qed.

Lemma next_id_not_in ids : ~ In (gorm.next_id ids) ids.
Proof. intros H. apply next_id_above in H. lia. Qed.

(** What [createUser] does with a body that binds. *)
Lemma createUser_bound c input w :
  gin.ShouldBindJSON c = inr input ->
  let id := gorm.next_id (map row_id (users (db w))) in
  createUser c w =
  match hd SqlOk (sql_faults w) with
  | SqlOk =>
      (gin.mkResponse http.StatusOK
         (gin.VUser (User.mk id (input_Name input) (input_Email input) [])),
       mkWorld (mkDB (users (db w) ++
                        [mkUserRow id (input_Name input) (input_Email input)])
                     (products (db w)))
               (tl (sql_faults w)) (wall w) (ticks w) (smtp_faults w)
               (outbox w) (log w) (engine w))
  | SqlFailed _ _ =>
      (gin.mkResponse http.StatusOK
         (gin.VUser (User.mk 0 (input_Name input) (input_Email input) [])),
       mkWorld (db w) (tl (sql_faults w)) (wall w) (ticks w) (smtp_faults w)
               (outbox w) (log w) (engine w))
  end.
Proof.
  intros Hb id. unfold createUser. rewrite Hb.
  unfold gorm.Create_User, bind, gorm.exec, gorm.get_db, gorm.put_db, gin.JSON, ret.
  cbn [db sql_faults wall ticks smtp_faults outbox log fst snd
       User.ID User.Name User.Email User.Products N.eqb].
  destruct (hd SqlOk (sql_faults w)) as [|msg n];
    cbn [db sql_faults wall ticks smtp_faults outbox log fst snd
         User.ID User.Name User.Email User.Products N.eqb]; [|reflexivity].
  fold id. unfold id at 1. rewrite next_id_fresh.
  cbn [db sql_faults wall ticks smtp_faults outbox log fst snd
       User.ID User.Name User.Email User.Products users products].
  reflexivity.
Qed.

(** C3, as the code has it.  When the job's read of the users with their
    products fails, the run hands no message to the transport, and the
    program logs the start of the run only.  A store write that fails inside
    a handler leaves the store as it was, but the handler does not look at
    the error: the request is answered 200, with the struct that was not
    saved (its ID is still zero), and the handler logs nothing. *)
Theorem C3_failed_read_sends_nothing_failed_write_answers_200 :
  (forall w, read_error w <> None ->
     new_outbox w (run checkExpiryJob w) = [] /\
     sent_since w (run checkExpiryJob w) = [] /\
     new_log w (run checkExpiryJob w) = ["Running expiry check job..."]) /\
  (forall c input w msg n,
     gin.ShouldBindJSON c = inr input ->
     hd SqlOk (sql_faults w) = SqlFailed msg n ->
     db (run (serve (POST_users c)) w) = db w /\
     log (run (serve (POST_users c)) w) = log w /\
     result (serve (POST_users c)) w =
       gin.mkResponse http.StatusOK
         (gin.VUser (User.mk 0 (input_Name input) (input_Email input) []))).
Proof.
  split.
  - intros w Hr.
    assert (S : sent_since w (run checkExpiryJob w) = []).
    { rewrite checkExpiryJob_sent.
      apply no_products_no_notification, failed_read_no_products, Hr. }
    assert (O : new_outbox w (run checkExpiryJob w) = []).
    { unfold sent_since in S. apply map_eq_nil in S. exact S. }
    split; [exact O|]. split; [exact S|].
    destruct (checkExpiryJob_run w) as (_ & _ & _ & _ & ls & L & N & _).
    rewrite L, (N O). reflexivity.
  - intros c input w msg n Hb Hf. unfold run, result, serve.
    rewrite (createUser_bound c input w Hb). cbv zeta. rewrite Hf.
    repeat split.
Qed.

Lemma C3_witness :
  (read_error example_world_preload_down <> None /\
   sent_since example_world_preload_down
              (run checkExpiryJob example_world_preload_down) = []) /\
  (hd SqlOk (sql_faults example_world_sql_down)
     = SqlFailed "database is locked" 0 /\
   result (serve (POST_users (gin.mkContext "" (inr (mkUserInput "C" "c@x.com")))))
          example_world_sql_down =
     gin.mkResponse http.StatusOK (gin.VUser (User.mk 0 "C" "c@x.com" []))).
Proof.
  pose proof C3_failed_read_sends_nothing_failed_write_answers_200 as [Hr Hw].
  split.
  - assert (E : read_error example_world_preload_down <> None) by discriminate.
    split; [exact E|]. apply (proj1 (proj2 (Hr _ E))).
  - split; [reflexivity|].
    apply (Hw (gin.mkContext "" (inr (mkUserInput "C" "c@x.com")))
              (mkUserInput "C" "c@x.com") example_world_sql_down
              "database is locked" 0%nat eq_refl eq_refl).
Defined.

(** C3, as stated, fails: with a store write that fails, [POST /users]
    leaves the store as it was and still answers 200. *)
Lemma C3_counterexample :
  let c := gin.mkContext "" (inr (mkUserInput "C" "c@x.com")) in
  let w := example_world_sql_down in
  snd (result (gorm.Create_User (User.mk 0 "C" "c@x.com" [])) w)
    = Some "database is locked" /\
  db (run (serve (POST_users c)) w) = db w /\
  gin.Status (result (serve (POST_users c)) w) = http.StatusOK.
Proof. repeat split. Qed.

(** ** The handlers *)

(** A text that is a decimal integer is compared as that integer. *)
Lemma owned_by_text_Atoi e s k p :
  strconv.Atoi s = Some k ->
  gorm.owned_by_text e s p = (Z.of_N (Product.UserID p) =? k)%Z.
Proof. intros H. unfold gorm.owned_by_text. rewrite H. reflexivity. Qed.

Lemma owned_by_text_key e s id p :
  strconv.Atoi s = Some (Z.of_N id) ->
  gorm.owned_by_text e s p = gorm.owned_by id p.
Proof.
  intros H. rewrite (owned_by_text_Atoi e s _ p H). unfold gorm.owned_by.
  destruct (N.eqb_spec (Product.UserID p) id) as [->|Hn].
  - apply Z.eqb_refl.
  - apply Z.eqb_neq. intros E. apply N2Z.inj in E. contradiction.
Qed.

Lemma filter_owned_by_text_key e s id ps :
  strconv.Atoi s = Some (Z.of_N id) ->
  filter (gorm.owned_by_text e s) ps = filter (gorm.owned_by id) ps.
Proof.
  intros H. apply filter_ext. intros p. apply owned_by_text_key, H.
Qed.

Lemma has_key_id id r : gorm.has_key (Z.of_N id) r = gorm.has_id id r.
Proof.
  unfold gorm.has_key, gorm.has_id.
  destruct (N.eqb_spec (row_id r) id) as [->|Hn].
  - apply Z.eqb_refl.
  - apply Z.eqb_neq. intros E. apply N2Z.inj in E. contradiction.
Qed.

Lemma find_has_key_id id rows :
  find (gorm.has_key (Z.of_N id)) rows = find (gorm.has_id id) rows.
Proof.
  induction rows as [|r rows IH]; cbn [find]; [reflexivity|].
  rewrite has_key_id, IH. reflexivity.
Qed.

(** What [listUserProducts] answers. *)
Lemma listUserProducts_response {A} (c : gin.Context A) w :
  result (listUserProducts c) w =
  match hd SqlOk (sql_faults w) with
  | SqlOk =>
      gin.mkResponse http.StatusOK
        (gin.VProducts
           (filter (gorm.owned_by_text (engine w) (gin.Param_id c))
                   (products (db w))))
  | SqlFailed _ _ =>
      gin.mkResponse http.StatusNotFound
        (gin.H_error "user not found or no products")
  end.
Proof.
  unfold result, listUserProducts, gorm.Where_user_id_Find, bind, gorm.exec,
    gorm.get_db, gorm.get_engine, gin.JSON, ret.
  cbn [db sql_faults engine fst snd].
  destruct (hd SqlOk (sql_faults w)); reflexivity.
Qed.

(** The products of a user who owns none are listed as an empty collection,
    with status 200. *)
Lemma listUserProducts_user_without_products (c : gin.Context unit) w id :
  hd SqlOk (sql_faults w) = SqlOk ->
  strconv.Atoi (gin.Param_id c) = Some (Z.of_N id) ->
  In id (map row_id (users (db w))) ->
  filter (gorm.owned_by id) (products (db w)) = [] ->
  result (serve (GET_users_id_products c)) w =
  gin.mkResponse http.StatusOK (gin.VProducts []).
Proof.
  intros Hf Ha _ He. cbn [serve].
  rewrite listUserProducts_response, Hf, (filter_owned_by_text_key _ _ id _ Ha), He.
  reflexivity.
Qed.

(** C4, at an id that is the key of no user: the answer is not a not-found
    error, as the message of the handler's 404 branch has it, but 200 with
    an empty collection. *)
Theorem C4_products_of_a_missing_user_are_an_empty_list :
  let c : gin.Context unit := gin.mkContext "7" (inr tt) in
  strconv.Atoi (gin.Param_id c) = Some 7%Z /\
  find (gorm.has_id 7) (users (db example_world)) = None /\
  result (serve (GET_users_id_products c)) example_world =
    gin.mkResponse http.StatusOK (gin.VProducts []).
Proof. repeat split. Qed.

(** What [listUsers] answers. *)
Lemma listUsers_response w :
  result listUsers w =
  gin.mkResponse http.StatusOK
    (gin.VUsers
       (map gorm.scan
          match hd SqlOk (sql_faults w) with
          | SqlOk => users (db w)
          | SqlFailed _ n => firstn n (users (db w))
          end)).
Proof.
  unfold result, listUsers, gorm.Find_Users, bind, gorm.exec, gorm.get_db,
    gin.JSON, ret.
  cbn [db sql_faults fst snd].
  destruct (hd SqlOk (sql_faults w)); reflexivity.
Qed.

(** C9. Whatever the store holds, [GET /users] answers 200 with users whose
    [Products] are all left unloaded: the rows of the table of users, in
    order, and no product of the table of products. *)
Theorem C9_listUsers_leaves_products_unloaded (w : World) :
  exists us,
    result (serve GET_users) w = gin.mkResponse http.StatusOK (gin.VUsers us) /\
    Forall (fun u => User.Products u = []) us /\
    (hd SqlOk (sql_faults w) = SqlOk ->
     map User.ID us = map row_id (users (db w))).
Proof.
  cbn [serve]. rewrite listUsers_response.
  eexists. split; [reflexivity|]. split; [apply scan_no_products|].
  intros ->. rewrite map_map. reflexivity.
Qed.

Lemma C9_witness :
  exists us,
    result (serve GET_users) example_world =
      gin.mkResponse http.StatusOK (gin.VUsers us) /\
    Forall (fun u => User.Products u = []) us /\
    map User.ID us = [1%N; 2%N] /\
    filter (gorm.owned_by 1) (products (db example_world)) <> [].
Proof.
  destruct (C9_listUsers_leaves_products_unloaded example_world)
    as (us & Hr & Hp & Hid).
  exists us. split; [exact Hr|]. split; [exact Hp|].
  split; [apply Hid; reflexivity | discriminate].
Defined.

(** C8. [POST /users] with a body that binds answers 200 with the user made
    of the name and the email of the body, whose [Products] are empty; when
    the store saved it, it is the row added to the table of users, under a
    key that no user had.  With a malformed body the answer is 400 with the
    error of the binding, and the store is left as it was. *)
Theorem C8_createUser_200_with_the_user_or_400 (c : gin.Context UserInput) (w : World) :
  let r := result (serve (POST_users c)) w in
  let w' := run (serve (POST_users c)) w in
  match gin.ShouldBindJSON c with
  | inr input =>
      exists u,
        r = gin.mkResponse http.StatusOK (gin.VUser u) /\
        User.Name u = input_Name input /\
        User.Email u = input_Email input /\
        User.Products u = [] /\
        (hd SqlOk (sql_faults w) = SqlOk ->
         users (db w') =
           (users (db w) ++
              [mkUserRow (User.ID u) (User.Name u) (User.Email u)])%list /\
         products (db w') = products (db w) /\
         ~ In (User.ID u) (map row_id (users (db w))))
  | inl err =>
      r = gin.mkResponse http.StatusBadRequest (gin.H_error err) /\
      db w' = db w
  end.
Proof.
  intros r w'. unfold r, w', result, run. cbn [serve].
  destruct (gin.ShouldBindJSON c) as [err|input] eqn:Hb.
  - unfold createUser. rewrite Hb. split; reflexivity.
  - rewrite (createUser_bound c input w Hb). cbv zeta.
    destruct (hd SqlOk (sql_faults w)) as [|msg n]; cbn [fst snd].
    + eexists. split; [reflexivity|]. cbn [User.Name User.Email User.Products User.ID db users products].
      repeat split. apply next_id_not_in.
    + eexists. split; [reflexivity|]. repeat split; discriminate.
Qed.

Lemma C8_witness :
  (exists u,
     result (serve (POST_users (gin.mkContext "" (inr (mkUserInput "C" "c@x.com")))))
            example_world = gin.mkResponse http.StatusOK (gin.VUser u) /\
     User.Products u = [] /\
     users (db (run (serve (POST_users
                              (gin.mkContext "" (inr (mkUserInput "C" "c@x.com")))))
                    example_world)) =
       (users (db example_world) ++
          [mkUserRow (User.ID u) (User.Name u) (User.Email u)])%list) /\
  (result (serve (POST_users (gin.mkContext "" (inl "unexpected EOF"))))
          example_world =
     gin.mkResponse http.StatusBadRequest (gin.H_error "unexpected EOF") /\
   db (run (serve (POST_users (gin.mkContext "" (inl "unexpected EOF"))))
           example_world) = db example_world).
Proof.
  split.
  - destruct (C8_createUser_200_with_the_user_or_400
                (gin.mkContext "" (inr (mkUserInput "C" "c@x.com"))) example_world)
      as (u & Hr & _ & _ & Hp & Hs).
    exists u. split; [exact Hr|]. split; [exact Hp|].
    apply (proj1 (Hs eq_refl)).
  - exact (C8_createUser_200_with_the_user_or_400
             (gin.mkContext "" (inl "unexpected EOF")) example_world).
Defined.

(** C5, as the code has it, for an [:id] that is a decimal integer, which
    the store library takes for a key.  [POST /users/:id/products] binds the
    body before it looks for the user.  When [:id] is the key of no user, no
    row is created and the store is left as it was; the answer is the
    not-found error 404 when the body binds, and 400 when the body is
    malformed.  The handler never touches the users, and a product it creates
    is owned by the user of key [:id], who is in the store at that time. *)
Theorem C5_no_product_under_a_missing_user
  (c : gin.Context ProductInput) (w : World) (k : Z) :
  strconv.Atoi (gin.Param_id c) = Some k ->
  let r := result (serve (POST_users_id_products c)) w in
  let w' := run (serve (POST_users_id_products c)) w in
  (find (gorm.has_key k) (users (db w)) = None ->
   db w' = db w /\
   match gin.ShouldBindJSON c with
   | inr _ =>
       r = gin.mkResponse http.StatusNotFound (gin.H_error "user not found")
   | inl err => r = gin.mkResponse http.StatusBadRequest (gin.H_error err)
   end) /\
  users (db w') = users (db w) /\
  (products (db w') = products (db w) \/
   exists p row,
     products (db w') = (products (db w) ++ [p])%list /\
     In row (users (db w)) /\
     row_id row = Product.UserID p /\
     Z.of_N (Product.UserID p) = k /\
     r = gin.mkResponse http.StatusOK (gin.VProduct p)).
Proof.
  intros Ha r w'. unfold r, w', result, run. cbn [serve]. unfold addProductToUser.
  destruct (gin.ShouldBindJSON c) as [err|input].
  { cbn. repeat split. left. reflexivity. }
  unfold gorm.First_User. rewrite Ha.
  unfold bind, gorm.exec, gorm.get_db, gin.JSON, ret.
  cbn [db sql_faults wall ticks smtp_faults outbox log engine fst snd].
  destruct (hd SqlOk (sql_faults w)) as [|msg n].
  2:{ cbn. repeat split. left. reflexivity. }
  destruct (find (gorm.has_key k) (users (db w))) as [row|] eqn:Ef.
  2:{ cbn. repeat split. left. reflexivity. }
  split; [discriminate|].
  apply find_some in Ef. destruct Ef as [Hin Hid].
  apply Z.eqb_eq in Hid.
  unfold gorm.Create_Product, bind, time_Now, gorm.exec, gorm.get_db,
    gorm.put_db, ret.
  cbn [db sql_faults wall ticks smtp_faults outbox log engine fst snd gorm.scan
       User.ID Product.ID Product.Name Product.Expiry Product.UserID
       Product.CreatedAt N.eqb].
  destruct (hd SqlOk (tl (sql_faults w))) as [|msg n].
  2:{ cbn. split; [reflexivity|]. left. reflexivity. }
  rewrite next_id_fresh.
  cbn [db sql_faults wall ticks smtp_faults outbox log engine fst snd users
       products].
  split; [reflexivity|]. right.
  eexists. exists row. split; [reflexivity|].
  cbn [Product.UserID]. repeat split; assumption.
Qed.

Lemma C5_witness :
  strconv.Atoi "7" = Some 7%Z /\
  find (gorm.has_key 7) (users (db example_world)) = None /\
  db (run (serve (POST_users_id_products
                    (gin.mkContext "7" (inr (mkProductInput "Tea" noon)))))
          example_world) = db example_world /\
  result (serve (POST_users_id_products
                   (gin.mkContext "7" (inr (mkProductInput "Tea" noon)))))
         example_world =
    gin.mkResponse http.StatusNotFound (gin.H_error "user not found").
Proof.
  assert (A : strconv.Atoi "7" = Some 7%Z) by reflexivity.
  assert (E : find (gorm.has_key 7) (users (db example_world)) = None)
    by reflexivity.
  split; [exact A|]. split; [exact E|].
  exact (proj1 (C5_no_product_under_a_missing_user
                  (gin.mkContext "7" (inr (mkProductInput "Tea" noon)))
                  example_world 7%Z A) E).
Defined.

(** C5, as stated, fails: a request with a malformed body, under an id that
    is the key of no user, is answered 400, not 404. *)
Lemma C5_counterexample :
  let c : gin.Context ProductInput := gin.mkContext "7" (inl "unexpected EOF") in
  strconv.Atoi (gin.Param_id c) = Some 7%Z /\
  find (gorm.has_key 7) (users (db example_world)) = None /\
  gin.Status (result (serve (POST_users_id_products c)) example_world)
    = http.StatusBadRequest /\
  gin.Status (result (serve (POST_users_id_products c)) example_world)
    <> http.StatusNotFound.
Proof. repeat split. discriminate. Qed.

(** ** Three scenarios, end to end *)

(** A user with milk that expires in two days gets one message, which
    mentions the milk and its two days. *)
Example scenario_one_product_two_days_left :
  let w := after [post_user "A" "a@x.com";
                  post_product "1" "Milk" (noon + 2 * Day)] empty_world in
  sent_since w (run checkExpiryJob w) =
  [("a@x.com", heading ++ "- Milk (เหลือ 2 วัน)" ++ fmt.nl)].
Proof. reflexivity. Qed.

(** A product that expires in ten days gives no message. *)
Example scenario_ten_days_left :
  let w := after [post_user "A" "a@x.com";
                  post_product "1" "Milk" (noon + 10 * Day)] empty_world in
  sent_since w (run checkExpiryJob w) = [].
Proof. reflexivity. Qed.

(** Of two users, only the one with a product about to expire gets a
    message. *)
Example scenario_two_users :
  let w := after [post_user "A" "a@x.com"; post_user "B" "b@x.com";
                  post_product "1" "Milk" (noon + 10 * Day);
                  post_product "2" "Eggs" (noon + 3 * Day)] empty_world in
  sent_since w (run checkExpiryJob w) =
  [("b@x.com", heading ++ "- Eggs (เหลือ 3 วัน)" ++ fmt.nl)].
Proof. reflexivity. Qed.

End Program.

(* ================================================================== *)
(** * Further properties *)

(** ** The day count that the messages show *)

Section DayCountShown.

Local Open Scope Z_scope.

(** The conversion to an int of a number between two integers stays between
    them. *)
Lemma to_int_between f a b :
  float64.is_finite f = true ->
  - 2 ^ 62 <= a -> b <= 2 ^ 62 ->
  (IZR a <= SF2R f <= IZR b)%R ->
  a <= float64.to_int f <= b.
Proof.
  intros Ff Ha Hb [Hlo Hhi].
  destruct f as [s|s| |s m e]; try discriminate; cbn [float64.to_int].
  - cbn [SF2R] in *. split; apply le_IZR; assumption.
  - pose proof (trunc_pos_bounds m e) as [T1 T2].
    pose proof (F2R_pos m e) as P.
    cbn [SF2R] in Hlo, Hhi. rewrite F2R_cond_Zopp in Hlo, Hhi.
    assert (H0 : 0 <= float64.trunc false m e).
    { assert (-1 < float64.trunc false m e); [|lia].
      apply lt_IZR. lra. }
    assert (Hs : float64.trunc s m e =
                 if s then - float64.trunc false m e
                 else float64.trunc false m e)
      by (unfold float64.trunc; destruct s; reflexivity).
    assert (B : a <= float64.trunc s m e <= b).
    { rewrite Hs. destruct s.
      - split.
        + assert (float64.trunc false m e <= - a); [|lia].
          apply le_IZR. rewrite opp_IZR. lra.
        + assert (- b < float64.trunc false m e + 1); [|lia].
          apply lt_IZR. rewrite plus_IZR, opp_IZR. lra.
      - split.
        + assert (a < float64.trunc false m e + 1); [|lia].
          apply lt_IZR. rewrite plus_IZR. lra.
        + apply le_IZR. lra. }
    replace (inInt64 (float64.trunc s m e)) with true; [exact B|].
    symmetry. unfold inInt64, minInt64, maxInt64.
    change (2 ^ 62) with 4611686018427387904 in *.
    change (2 ^ 63) with 9223372036854775808.
    apply andb_true_iff. split; apply Z.leb_le; lia.
Qed.

Lemma to_int_gt f k :
  float64.is_finite f = true -> k < 0 -> - 2 ^ 62 <= k ->
  (IZR k < SF2R f <= 0)%R ->
  k < float64.to_int f.
Proof.
  intros Ff Hk Hmin [Hv H0].
  destruct f as [s|s| |s m e]; try discriminate; cbn [float64.to_int]; [lia|].
  pose proof (trunc_pos_bounds m e) as [T1 T2].
  pose proof (F2R_pos m e) as P.
  cbn [SF2R] in Hv, H0. rewrite F2R_cond_Zopp in Hv, H0.
  destruct s; [|lra].
  assert (B : float64.trunc false m e < - k).
  { apply lt_IZR. rewrite opp_IZR. lra. }
  assert (N0 : 0 <= float64.trunc false m e).
  { assert (-1 < float64.trunc false m e); [|lia]. apply lt_IZR. lra. }
  assert (Hs : float64.trunc true m e = - float64.trunc false m e)
    by reflexivity.
  replace (inInt64 (float64.trunc true m e)) with true; [lia|].
  symmetry. unfold inInt64, minInt64, maxInt64.
  change (2 ^ 62) with 4611686018427387904 in *.
  change (2 ^ 63) with 9223372036854775808.
  apply andb_true_iff. split; apply Z.leb_le; lia.
Qed.

Lemma quot_Day_bounds d :
  d = Day * Z.quot d Day + Z.rem d Day /\
  (0 <= d -> 0 <= Z.rem d Day < Day) /\
  (d <= 0 -> - Day < Z.rem d Day <= 0).
Proof.
  split; [apply Z.quot_rem'|]. split; intros H.
  - apply Z.rem_bound_pos; [exact H | reflexivity].
  - apply Z.rem_bound_pos_neg; [reflexivity | exact H].
Qed.

(** Within sixty days of the expiry, the float of the job is the integer
    division. *)
Lemma days_float_exact d :
  - (60 * Day) < d < 60 * Day ->
  float64.to_int (float64.div (time.Hours d) (float64.of_int 24))
  = Z.quot d Day.
Proof.
  intros Hd.
  destruct (quot_rem_Hour d) as (Eh & Rhp & Rhn).
  destruct (quot_Day_bounds d) as (Ed & Rdp & Rdn).
  set (k := Z.quot d Day) in *. set (h := Z.quot d time.Hour) in *.
  unfold Day in Hd, Ed, Rdp, Rdn.
  change time.Hour with 3600000000000 in Hd, Eh, Rhp, Rhn, Ed, Rdp, Rdn.
  assert (V1 : F2R 4398046511103 (-42) = (4398046511103 / 4398046511104)%R)
    by (rewrite (F2R_neg_exp _ 42) by lia; reflexivity).
  assert (V1' : F2R (-4398046511103) (-42) = (-4398046511103 / 4398046511104)%R)
    by (rewrite (F2R_neg_exp _ 42) by lia; reflexivity).
  destruct (Z_lt_le_dec d 0) as [Hneg|Hpos].
  - specialize (Rhn ltac:(lia)). specialize (Rdn ltac:(lia)).
    assert (Hk : -59 <= k <= 0) by lia.
    assert (Hh : 24 * k - 23 <= h <= 24 * k) by lia.
    assert (V2 : F2R (24 * (k - 1) * 4398046511104 + 1) (-42)
                 = ((24 * (IZR k - 1) * 4398046511104 + 1) / 4398046511104)%R).
    { rewrite (F2R_neg_exp _ 42) by lia.
      rewrite plus_IZR, !mult_IZR, minus_IZR. reflexivity. }
    assert (V3 : F2R ((k - 1) * 140737488355328 + 1) (-47)
                 = (((IZR k - 1) * 140737488355328 + 1) / 140737488355328)%R).
    { rewrite (F2R_neg_exp _ 47) by lia.
      rewrite plus_IZR, mult_IZR, minus_IZR. reflexivity. }
    destruct (Hours_div_24_bounds d (24 * k - 23) (24 * k) (-3599999999999) 0
                (F2R (-4398046511103) (-42)) 0
                (F2R (24 * (k - 1) * 4398046511104 + 1) (-42)) (IZR (24 * k))
                (F2R ((k - 1) * 140737488355328 + 1) (-47)) (IZR k))
      as [Ff Bf];
      try exact Hh;
      try (change time.Hour with 3600000000000; lia);
      try (apply sformat_IZR; change (2 ^ 53) with 9007199254740992; lia);
      try (apply sformat_F2R; [change (2 ^ 53) with 9007199254740992; lia | lia]);
      try (rewrite ?V1, ?V1', ?V2, ?V3, ?minus_IZR, ?mult_IZR; lra).
    rewrite V3 in Bf.
    assert (L : k - 1 < float64.to_int
                  (float64.div (time.Hours d) (float64.of_int 24))).
    { apply to_int_gt; [exact Ff | lia | change (2 ^ 62) with 4611686018427387904; lia |].
      rewrite minus_IZR. split; [lra|].
      assert (IZR k <= 0)%R by (apply IZR_le; lia). lra. }
    assert (U : k - 1 <= float64.to_int
                  (float64.div (time.Hours d) (float64.of_int 24)) <= k).
    { apply to_int_between;
        [exact Ff | change (2 ^ 62) with 4611686018427387904; lia
         | change (2 ^ 62) with 4611686018427387904; lia |].
      rewrite minus_IZR. lra. }
    lia.
  - specialize (Rhp ltac:(lia)). specialize (Rdp ltac:(lia)).
    assert (Hk : 0 <= k <= 59) by lia.
    assert (Hh : 24 * k <= h <= 24 * k + 23) by lia.
    assert (V2 : F2R (24 * (k + 1) * 4398046511104 - 1) (-42)
                 = ((24 * (IZR k + 1) * 4398046511104 - 1) / 4398046511104)%R).
    { rewrite (F2R_neg_exp _ 42) by lia.
      rewrite minus_IZR, !mult_IZR, plus_IZR. reflexivity. }
    assert (V3 : F2R ((k + 1) * 140737488355328 - 1) (-47)
                 = (((IZR k + 1) * 140737488355328 - 1) / 140737488355328)%R).
    { rewrite (F2R_neg_exp _ 47) by lia.
      rewrite minus_IZR, mult_IZR, plus_IZR. reflexivity. }
    destruct (Hours_div_24_bounds d (24 * k) (24 * k + 23) 0 3599999999999
                0 (F2R 4398046511103 (-42))
                (IZR (24 * k)) (F2R (24 * (k + 1) * 4398046511104 - 1) (-42))
                (IZR k) (F2R ((k + 1) * 140737488355328 - 1) (-47)))
      as [Ff Bf];
      try exact Hh;
      try (change time.Hour with 3600000000000; lia);
      try (apply sformat_IZR; change (2 ^ 53) with 9007199254740992; lia);
      try (apply sformat_F2R; [change (2 ^ 53) with 9007199254740992; lia | lia]);
      try (rewrite ?V1, ?V1', ?V2, ?V3, ?plus_IZR, ?mult_IZR; lra).
    rewrite V3 in Bf.
    assert (U : float64.to_int
                  (float64.div (time.Hours d) (float64.of_int 24)) < k + 1).
    { apply to_int_lt; [exact Ff | lia |]. rewrite plus_IZR. lra. }
    assert (L : k <= float64.to_int
                  (float64.div (time.Hours d) (float64.of_int 24)) <= k + 1).
    { apply to_int_between;
        [exact Ff | change (2 ^ 62) with 4611686018427387904; lia
         | change (2 ^ 62) with 4611686018427387904; lia |].
      rewrite plus_IZR. lra. }
    lia.
Qed.

End DayCountShown.

(** ** The store under the requests and the runs of the job *)

Section Store.

Local Open Scope string_scope.

Lemma StronglySorted_snoc (l : list N) y :
  StronglySorted N.lt l -> Forall (fun x => (x < y)%N) l ->
  StronglySorted N.lt (l ++ [y]).
Proof.
  induction 1 as [|x l Hs IH Hx]; intros Hy; cbn [List.app].
  - constructor; constructor.
  - inversion Hy; subst. constructor; [apply IH; assumption|].
    apply Forall_app. split; [exact Hx | constructor; [assumption | constructor]].
Qed.

Lemma keys_ok_next ids : keys_ok ids -> keys_ok (ids ++ [gorm.next_id ids]).
Proof.
  unfold keys_ok. intros H.
  change (0%N :: ids ++ [gorm.next_id ids])%list
    with ((0%N :: ids) ++ [gorm.next_id ids])%list.
  apply StronglySorted_snoc; [exact H|].
  constructor; [unfold gorm.next_id; lia|].
  apply Forall_forall. intros x Hx. apply next_id_above, Hx.
Qed.

Lemma StronglySorted_lt_NoDup (l : list N) : StronglySorted N.lt l -> NoDup l.
Proof.
  induction 1 as [|x l Hs IH Hx]; constructor; [|exact IH].
  intros Hin. rewrite Forall_forall in Hx. specialize (Hx x Hin). lia.
Qed.

Lemma keys_ok_NoDup ids : keys_ok ids -> NoDup ids /\ ~ In 0%N ids.
Proof.
  unfold keys_ok. intros H. apply StronglySorted_lt_NoDup in H.
  inversion H; subst. split; assumption.
Qed.

(** A step of the store keeps its invariants, and only adds rows. *)
Lemma store_step_ok d d' : store_step d d' -> store_ok d -> store_ok d'.
Proof.
  intros Hs (Ku & Kp & Ho). destruct Hs as [|name email|name expiry owner created Hin].
  - repeat split; assumption.
  - unfold store_ok, owners_exist. cbn [users products].
    rewrite map_app. cbn [map row_id]. split; [apply keys_ok_next, Ku|].
    split; [exact Kp|].
    eapply Forall_impl; [|exact Ho]. cbn beta. intros p Hp.
    apply in_app_iff. left. exact Hp.
  - unfold store_ok, owners_exist. cbn [users products].
    rewrite map_app. cbn [map Product.ID]. split; [exact Ku|].
    split; [apply keys_ok_next, Kp|].
    apply Forall_app. split; [exact Ho|]. constructor; [exact Hin | constructor].
Qed.

Lemma store_step_grows d d' :
  store_step d d' ->
  exists us ps, users d' = (users d ++ us)%list /\
                products d' = (products d ++ ps)%list.
Proof.
  intros [|name email|name expiry owner created Hin]; cbn [users products].
  - exists [], []. rewrite !app_nil_r. split; reflexivity.
  - exists [mkUserRow (gorm.next_id (map row_id (users d))) name email], [].
    rewrite app_nil_r. split; reflexivity.
  - exists [], [Product.mk (gorm.next_id (map Product.ID (products d)))
                           name expiry owner created].
    rewrite app_nil_r. split; reflexivity.
Qed.

(** What [addProductToUser] does with a body that binds, under an [:id]
    that is a decimal integer and not negative. *)
Lemma addProductToUser_bound c input w key :
  gin.ShouldBindJSON c = inr input ->
  strconv.Atoi (gin.Param_id c) = Some (Z.of_N key) ->
  let id := gorm.next_id (map Product.ID (products (db w))) in
  let now := wall w (ticks w) in
  let not_found :=
    (gin.mkResponse http.StatusNotFound (gin.H_error "user not found"),
     mkWorld (db w) (tl (sql_faults w)) (wall w) (ticks w) (smtp_faults w)
             (outbox w) (log w) (engine w)) in
  addProductToUser c w =
  match hd SqlOk (sql_faults w) with
  | SqlFailed _ _ => not_found
  | SqlOk =>
      match find (gorm.has_id key) (users (db w)) with
      | None => not_found
      | Some row =>
          match hd SqlOk (tl (sql_faults w)) with
          | SqlFailed _ _ =>
              (gin.mkResponse http.StatusOK
                 (gin.VProduct
                    (Product.mk 0 (pinput_Name input) (pinput_Expiry input)
                                (row_id row) now)),
               mkWorld (db w) (tl (tl (sql_faults w))) (wall w) (S (ticks w))
                       (smtp_faults w) (outbox w) (log w) (engine w))
          | SqlOk =>
              (gin.mkResponse http.StatusOK
                 (gin.VProduct
                    (Product.mk id (pinput_Name input) (pinput_Expiry input)
                                (row_id row) now)),
               mkWorld (mkDB (users (db w))
                             (products (db w) ++
                                [Product.mk id (pinput_Name input)
                                            (pinput_Expiry input)
                                            (row_id row) now]))
                       (tl (tl (sql_faults w))) (wall w) (S (ticks w))
                       (smtp_faults w) (outbox w) (log w) (engine w))
          end
      end
  end.
Proof.
  intros Hb Ha id now not_found. unfold addProductToUser. rewrite Hb.
  unfold gorm.First_User. rewrite Ha.
  unfold bind, gorm.exec, gorm.get_db, gin.JSON, ret.
  cbn [db sql_faults wall ticks smtp_faults outbox log engine fst snd].
  rewrite find_has_key_id.
  destruct (hd SqlOk (sql_faults w)) as [|msg n]; [|reflexivity].
  destruct (find (gorm.has_id key) (users (db w))) as [row|];
    [|reflexivity].
  unfold gorm.Create_Product, bind, time_Now, gorm.exec, gorm.get_db,
    gorm.put_db, ret.
  cbn [db sql_faults wall ticks smtp_faults outbox log engine fst snd gorm.scan
       User.ID Product.ID Product.Name Product.Expiry Product.UserID
       Product.CreatedAt N.eqb Z.eqb].
  destruct (hd SqlOk (tl (sql_faults w))) as [|msg n]; [|reflexivity].
  fold id. unfold id at 1. rewrite next_id_fresh.
  cbn [db sql_faults wall ticks smtp_faults outbox log engine fst snd users
       products].
  reflexivity.
Qed.

(** The row of least key is a row of the table. *)
Lemma least_row_In rows r : gorm.least_row rows = Some r -> In r rows.
Proof.
  revert r. induction rows as [|x rows IH]; intros r; cbn [gorm.least_row].
  - discriminate.
  - destruct (gorm.least_row rows) as [m|].
    + destruct (N.ltb (row_id m) (row_id x)); intros E; inversion E; subst.
      * right. apply IH. reflexivity.
      * left. reflexivity.
    + intros E. inversion E. left. reflexivity.
Qed.

(** [db.Create(&product)] for a new product: nothing is mailed or logged, and
    the store is left as it was or gets the product under the next key. *)
Lemma Create_Product_new name expiry owner w :
  let w' := snd (gorm.Create_Product (Product.mk 0 name expiry owner 0) w) in
  quiet w w' /\
  (db w' = db w \/
   db w' = mkDB (users (db w))
                (products (db w) ++
                   [Product.mk (gorm.next_id (map Product.ID (products (db w))))
                               name expiry owner (wall w (ticks w))])).
Proof.
  unfold quiet, gorm.Create_Product, bind, time_Now, gorm.exec, gorm.get_db,
    gorm.put_db, ret.
  cbn [db sql_faults wall ticks smtp_faults outbox log engine fst snd
       Product.ID Product.Name Product.Expiry Product.UserID
       Product.CreatedAt N.eqb Z.eqb].
  destruct (hd SqlOk (sql_faults w)) as [|msg n].
  - rewrite next_id_fresh. cbn. repeat split. right. reflexivity.
  - cbn. repeat split. left. reflexivity.
Qed.

(** A request mails and logs nothing. *)
Lemma serve_quiet r w : quiet w (run (serve r) w).
Proof.
  unfold run. destruct r as [c| |c|c]; cbn [serve].
  - destruct (gin.ShouldBindJSON c) as [err|input] eqn:Hb.
    + unfold createUser. rewrite Hb. cbn. repeat split.
    + rewrite (createUser_bound c input w Hb). cbv zeta.
      destruct (hd SqlOk (sql_faults w)); repeat split.
  - unfold listUsers, gorm.Find_Users, bind, gorm.exec, gorm.get_db, gin.JSON, ret.
    cbn [db sql_faults fst snd].
    destruct (hd SqlOk (sql_faults w)); cbn; repeat split.
  - unfold addProductToUser.
    destruct (gin.ShouldBindJSON c) as [err|input]; [cbn; repeat split|].
    unfold bind at 1.
    destruct (gorm.First_User (gin.Param_id c) w) as [[u err] w1] eqn:EF.
    assert (Q : quiet w w1).
    { revert EF. unfold quiet, gorm.First_User, bind, gorm.exec, gorm.get_db,
        gorm.get_engine, gorm.put_db, ret.
      cbn [db sql_faults wall ticks smtp_faults outbox log engine fst snd].
      destruct (hd SqlOk (sql_faults w)) as [|msg n];
        [|intros E; inversion E; subst; repeat split].
      destruct (strconv.Atoi (gin.Param_id c)) as [k|].
      { destruct (find (gorm.has_key k) (users (db w)));
          intros E; inversion E; subst; repeat split. }
      destruct (strconv.numeral (gin.Param_id c)) as [k|].
      { destruct (gorm.least_row (users (db w)));
          intros E; inversion E; subst; repeat split. }
      destruct (sqlite.raw_where _ (gin.Param_id c) (db w)) as [d' r'].
      intros E; inversion E; subst; repeat split. }
    destruct err as [e|]; [exact Q|].
    unfold bind, gin.JSON, ret.
    pose proof (Create_Product_new (pinput_Name input) (pinput_Expiry input)
                  (User.ID u) w1) as [Q1 _].
    destruct (gorm.Create_Product _ w1) as [r2 w2]. cbn [snd] in *.
    destruct Q as (O & L & F & W). destruct Q1 as (O1 & L1 & F1 & W1).
    unfold quiet. repeat split; congruence.
  - unfold listUserProducts, gorm.Where_user_id_Find, bind, gorm.exec,
      gorm.get_db, gorm.get_engine, gin.JSON, ret.
    cbn [db sql_faults engine fst snd].
    destruct (hd SqlOk (sql_faults w)); cbn; repeat split.
Qed.

(** A request whose [:id] is a numeral steps the store. *)
Lemma serve_step r w :
  numeral_id r = true -> store_step (db w) (db (run (serve r) w)).
Proof.
  unfold run. destruct r as [c| |c|c]; cbn [serve numeral_id]; intros Hn.
  - destruct (gin.ShouldBindJSON c) as [err|input] eqn:Hb.
    + unfold createUser. rewrite Hb. cbn. constructor.
    + rewrite (createUser_bound c input w Hb). cbv zeta.
      destruct (hd SqlOk (sql_faults w)); cbn [snd db]; constructor.
  - unfold listUsers, gorm.Find_Users, bind, gorm.exec, gorm.get_db, gin.JSON, ret.
    cbn [db sql_faults fst snd].
    destruct (hd SqlOk (sql_faults w)); cbn; constructor.
  - unfold addProductToUser.
    destruct (gin.ShouldBindJSON c) as [err|input]; [cbn; constructor|].
    unfold bind at 1.
    destruct (gorm.First_User (gin.Param_id c) w) as [[u err] w1] eqn:EF.
    assert (Q : db w1 = db w /\
                (err = None -> In (User.ID u) (map row_id (users (db w))))).
    { revert EF. unfold gorm.First_User, bind, gorm.exec, gorm.get_db,
        gorm.get_engine, gorm.put_db, ret.
      cbn [db sql_faults wall ticks smtp_faults outbox log engine fst snd].
      destruct (hd SqlOk (sql_faults w)) as [|msg n];
        [|intros E; inversion E; subst; split; [reflexivity|discriminate]].
      destruct (strconv.Atoi (gin.Param_id c)) as [k|].
      { destruct (find (gorm.has_key k) (users (db w))) as [row|] eqn:Ef;
          intros E; inversion E; subst;
          (split; [reflexivity|]); [|discriminate].
        intros _. apply find_some in Ef.
        change (User.ID (gorm.scan row)) with (row_id row).
        apply in_map, (proj1 Ef). }
      destruct (strconv.numeral (gin.Param_id c)) as [k|]; [|discriminate].
      destruct (gorm.least_row (users (db w))) as [row|] eqn:El;
        intros E; inversion E; subst;
        (split; [reflexivity|]); [|discriminate].
      intros _. change (User.ID (gorm.scan row)) with (row_id row).
      apply in_map. apply least_row_In, El. }
    destruct Q as [D Hu].
    destruct err as [e|];
      [change (store_step (db w) (db w1)); rewrite D; constructor|].
    unfold bind, gin.JSON, ret.
    pose proof (Create_Product_new (pinput_Name input) (pinput_Expiry input)
                  (User.ID u) w1) as [_ C].
    destruct (gorm.Create_Product _ w1) as [r2 w2]. cbn [snd] in *.
    rewrite D in C. destruct C as [C|C]; rewrite C.
    + constructor.
    + apply step_product. apply Hu. reflexivity.
  - unfold listUserProducts, gorm.Where_user_id_Find, bind, gorm.exec,
      gorm.get_db, gorm.get_engine, gin.JSON, ret.
    cbn [db sql_faults engine fst snd].
    destruct (hd SqlOk (sql_faults w)); cbn; constructor.
Qed.

Lemma handle_step e w :
  numeral_ids e = true -> store_step (db w) (db (handle e w)).
Proof.
  destruct e as [r|]; cbn [handle numeral_ids]; intros Hn.
  - apply serve_step, Hn.
  - destruct (checkExpiryJob_run w) as (_ & _ & D & _). rewrite D. constructor.
Qed.

(** X4. Whatever requests are served and however often the job runs, in
    whatever order and whichever SQL statements and deliveries fail, as long
    as the [:id] of every [POST /users/:id/products] is a decimal numeral: a
    store whose keys are positive and grow along each table, and whose
    products all have their owner in the store, stays such a store: no key
    is given twice, and no product is without its user. *)
Theorem history_keeps_the_store_consistent (es : list Event) (w : World) :
  forallb numeral_ids es = true ->
  store_ok (db w) ->
  store_ok (db (history es w)) /\
  NoDup (map row_id (users (db (history es w)))) /\
  NoDup (map Product.ID (products (db (history es w)))) /\
  Forall (fun p => exists row, In row (users (db (history es w))) /\
                               row_id row = Product.UserID p)
         (products (db (history es w))).
Proof.
  intros Hn H.
  assert (S : store_ok (db (history es w))).
  { revert w H. induction es as [|e es IH]; intros w H; cbn [history fold_left].
    - exact H.
    - cbn [forallb] in Hn. apply andb_prop in Hn. destruct Hn as [He Hes].
      apply (IH Hes).
      apply (store_step_ok (db w)); [apply handle_step, He | exact H]. }
  split; [exact S|]. destruct S as (Ku & Kp & Ho).
  split; [apply keys_ok_NoDup, Ku|]. split; [apply keys_ok_NoDup, Kp|].
  eapply Forall_impl; [|exact Ho]. cbn beta. intros p Hp.
  apply in_map_iff in Hp. destruct Hp as (row & Hr & Hin).
  exists row. split; assumption.
Qed.

Lemma history_keeps_the_store_consistent_witness :
  store_ok (db empty_world) /\
  store_ok (db (history example_history empty_world)) /\
  List.length (products (db (history example_history empty_world))) = 2%nat.
Proof.
  assert (H : store_ok (db empty_world)).
  { repeat split; cbn; repeat constructor. }
  split; [exact H|]. split; [|reflexivity].
  exact (proj1 (history_keeps_the_store_consistent example_history empty_world
                  eq_refl H)).
Defined.

(** X5. Under the same requests, rows are only ever added, at the end of
    their table: after any runs of the job and any requests whose [:id] on
    [POST /users/:id/products] is a decimal numeral, the users and the
    products of before are still there, unchanged and in their order, before
    the new ones. *)
Theorem history_only_adds_rows (es : list Event) (w : World) :
  forallb numeral_ids es = true ->
  exists us ps,
    users (db (history es w)) = (users (db w) ++ us)%list /\
    products (db (history es w)) = (products (db w) ++ ps)%list.
Proof.
  revert w. induction es as [|e es IH]; intros w Hn; cbn [history fold_left].
  - exists [], []. rewrite !app_nil_r. split; reflexivity.
  - cbn [forallb] in Hn. apply andb_prop in Hn. destruct Hn as [He Hes].
    destruct (store_step_grows _ _ (handle_step e w He)) as (us1 & ps1 & U1 & P1).
    destruct (IH (handle e w) Hes) as (us2 & ps2 & U2 & P2).
    exists (us1 ++ us2)%list, (ps1 ++ ps2)%list.
    unfold history in U2, P2. rewrite U2, P2, U1, P1, !app_assoc.
    split; reflexivity.
Qed.

Lemma history_only_adds_rows_witness :
  exists us ps,
    users (db (history example_history example_world))
      = (users (db example_world) ++ us)%list /\
    products (db (history example_history example_world))
      = (products (db example_world) ++ ps)%list.
Proof.
  exact (history_only_adds_rows example_history example_world eq_refl).
Defined.

(** X6. The two halves of the program do not meet: a request, whatever its
    route and its outcome, hands nothing to the mail transport and logs
    nothing, and a run of the job leaves the store as it was. *)
Theorem requests_do_not_mail_and_the_job_does_not_write (w : World) :
  (forall r, outbox (run (serve r) w) = outbox w /\
             log (run (serve r) w) = log w) /\
  db (run checkExpiryJob w) = db w.
Proof.
  split.
  - intros r. destruct (serve_quiet r w) as (O & L & _). split; assumption.
  - destruct (checkExpiryJob_run w) as (_ & _ & D & _). exact D.
Qed.

End Store.

(** ** What is created is found *)

Section RoundTrips.

Local Open Scope string_scope.

Lemma find_snoc {A} (f : A -> bool) l x :
  (forall y, In y l -> f y = false) -> f x = true ->
  find f (l ++ [x]) = Some x.
Proof.
  intros Hl Hx. induction l as [|y l IH]; cbn [List.app find].
  - rewrite Hx. reflexivity.
  - rewrite (Hl y (or_introl eq_refl)). apply IH.
    intros z Hz. apply Hl. right. exact Hz.
Qed.

Lemma has_id_next_id rows y :
  In y rows -> gorm.has_id (gorm.next_id (map row_id rows)) y = false.
Proof.
  intros Hy. unfold gorm.has_id. apply N.eqb_neq. intros E.
  apply (next_id_not_in (map row_id rows)). rewrite <- E.
  apply in_map, Hy.
Qed.

Lemma owned_by_next_id d p :
  owners_exist d -> In p (products d) ->
  gorm.owned_by (gorm.next_id (map row_id (users d))) p = false.
Proof.
  intros Ho Hp. unfold owners_exist in Ho. rewrite Forall_forall in Ho.
  specialize (Ho p Hp). unfold gorm.owned_by. apply N.eqb_neq. intros E.
  apply (next_id_not_in (map row_id (users d))). rewrite <- E. exact Ho.
Qed.

Lemma filter_none {A} (f : A -> bool) l :
  (forall x, In x l -> f x = false) -> filter f l = [].
Proof.
  induction l as [|x l IH]; intros H; cbn [filter]; [reflexivity|].
  rewrite (H x (or_introl eq_refl)). apply IH.
  intros y Hy. apply H. right. exact Hy.
Qed.

(** X7. When no SQL statement fails, the user that [POST /users] answers is
    in the store from then on: [GET /users] lists it, last, after the users
    of before; and under every [:id] that is a decimal integer equal to its
    key, the lookup gives it back, a product can be added, and, in a store
    where every product has its owner, its own list of products is empty. *)
Theorem a_created_user_is_found (c : gin.Context UserInput) (input : UserInput)
  (w : World) :
  gin.ShouldBindJSON c = inr input ->
  sql_faults w = [] ->
  let w1 := run (serve (POST_users c)) w in
  exists u,
    result (serve (POST_users c)) w = gin.mkResponse http.StatusOK (gin.VUser u) /\
    result (serve GET_users) w1 =
      gin.mkResponse http.StatusOK
        (gin.VUsers (map gorm.scan (users (db w)) ++ [u])%list) /\
    forall id, strconv.Atoi id = Some (Z.of_N (User.ID u)) ->
      result (gorm.First_User id) w1 = (u, None) /\
      (forall name expiry,
         gin.Status (result (serve (post_product id name expiry)) w1)
         = http.StatusOK) /\
      (owners_exist (db w) ->
       result (serve (GET_users_id_products (gin.mkContext id (inr tt)))) w1
       = gin.mkResponse http.StatusOK (gin.VProducts [])).
Proof.
  intros Hb Hf w1. unfold w1, run, result. cbn [serve].
  rewrite (createUser_bound c input w Hb). cbv zeta. rewrite Hf.
  cbn [hd tl fst snd].
  set (key := gorm.next_id (map row_id (users (db w)))).
  set (row := mkUserRow key (input_Name input) (input_Email input)).
  set (w' := mkWorld _ _ _ _ _ _ _ _).
  assert (Ef : find (gorm.has_id key) (users (db w) ++ [row]) = Some row).
  { apply find_snoc; [intros y Hy; apply has_id_next_id, Hy|].
    unfold gorm.has_id, row. cbn [row_id]. apply N.eqb_refl. }
  eexists. split; [reflexivity|]. cbn [User.ID].
  split.
  { change (fst (listUsers w')) with (result listUsers w').
    rewrite listUsers_response. unfold w'. cbn [sql_faults hd db users].
    rewrite map_app. reflexivity. }
  intros id Ha. split; [|split].
  - unfold gorm.First_User. rewrite Ha.
    unfold bind, gorm.exec, gorm.get_db, ret, w'.
    cbn [db sql_faults hd tl users fst snd]. rewrite find_has_key_id, Ef.
    reflexivity.
  - intros name expiry. unfold post_product. cbn [serve].
    rewrite (addProductToUser_bound
               (gin.mkContext id (inr (mkProductInput name expiry)))
               (mkProductInput name expiry) w' key eq_refl Ha).
    cbv zeta. unfold w'. cbn [db sql_faults hd tl users gin.Param_id].
    rewrite Ef. reflexivity.
  - intros Ho.
    change (fst (listUserProducts (gin.mkContext id (inr tt)) w'))
      with (result (listUserProducts (gin.mkContext id (inr tt))) w').
    rewrite listUserProducts_response. unfold w'.
    cbn [db sql_faults hd products gin.Param_id engine].
    rewrite (filter_owned_by_text_key _ _ key _ Ha).
    rewrite filter_none; [reflexivity|].
    intros p Hp. apply owned_by_next_id; assumption.
Qed.

Lemma a_created_user_is_found_witness :
  exists u,
    result (serve (post_user "C" "c@x.com")) example_world
      = gin.mkResponse http.StatusOK (gin.VUser u) /\
    result (gorm.First_User "3")
           (run (serve (post_user "C" "c@x.com")) example_world) = (u, None) /\
    gin.Status (result (serve (post_product "3" "Tea" noon))
                       (run (serve (post_user "C" "c@x.com")) example_world))
      = http.StatusOK.
Proof.
  destruct (a_created_user_is_found
              (gin.mkContext "" (inr (mkUserInput "C" "c@x.com")))
              (mkUserInput "C" "c@x.com") example_world eq_refl eq_refl)
    as (u & Hr & _ & Hid).
  exists u. split; [exact Hr|].
  assert (Hu : User.ID u = 3%N).
  { unfold result in Hr. cbn in Hr. inversion Hr. reflexivity. }
  assert (Ha : strconv.Atoi "3" = Some (Z.of_N (User.ID u))).
  { rewrite Hu. reflexivity. }
  destruct (Hid "3" Ha) as (Hfound & Hadd & _).
  split; [exact Hfound | apply Hadd].
Defined.

(** X8. When no SQL statement fails and [:id] is a decimal integer, the key
    of a user, the product that [POST /users/:id/products] answers has the
    name and the expiry of the body, that user as its owner, the time of the
    request as its creation time and a key that no product had; from then on
    [GET /users/:id/products] lists it, last, after the products the user
    had, and the lists of the other users are what they were.  Under a text
    that is no decimal integer the list is what it was, with or without the
    new product at its end. *)
Theorem an_added_product_is_listed (c : gin.Context ProductInput)
  (input : ProductInput) (w : World) (key : uint) (row : UserRow) :
  gin.ShouldBindJSON c = inr input ->
  sql_faults w = [] ->
  strconv.Atoi (gin.Param_id c) = Some (Z.of_N key) ->
  find (gorm.has_id key) (users (db w)) = Some row ->
  let w1 := run (serve (POST_users_id_products c)) w in
  exists p,
    result (serve (POST_users_id_products c)) w
      = gin.mkResponse http.StatusOK (gin.VProduct p) /\
    Product.Name p = pinput_Name input /\
    Product.Expiry p = pinput_Expiry input /\
    Product.UserID p = key /\
    Product.CreatedAt p = wall w (ticks w) /\
    ~ In (Product.ID p) (map Product.ID (products (db w))) /\
    (forall A (c' : gin.Context A) key',
       strconv.Atoi (gin.Param_id c') = Some (Z.of_N key') ->
       result (listUserProducts c') w1 =
       gin.mkResponse http.StatusOK
         (gin.VProducts
            (filter (gorm.owned_by key') (products (db w)) ++
             (if N.eqb key' key then [p] else []))%list)) /\
    (forall A (c' : gin.Context A),
       result (listUserProducts c') w1 =
       gin.mkResponse http.StatusOK
         (gin.VProducts
            (filter (gorm.owned_by_text (engine w) (gin.Param_id c'))
                    (products (db w)) ++
             (if gorm.owned_by_text (engine w) (gin.Param_id c') p
              then [p] else []))%list)).
Proof.
  intros Hb Hf Ha Hu w1. unfold w1, run, result. cbn [serve].
  rewrite (addProductToUser_bound c input w key Hb Ha). cbv zeta.
  rewrite Hf, Hu. cbn [hd tl fst snd].
  pose proof (find_some _ _ Hu) as [_ Hid]. apply N.eqb_eq in Hid.
  set (p := Product.mk _ _ _ _ _).
  set (w' := mkWorld _ _ _ _ _ _ _ _).
  exists p. split; [reflexivity|].
  assert (G : forall A (c' : gin.Context A),
            fst (listUserProducts c' w') =
            gin.mkResponse http.StatusOK
              (gin.VProducts
                 (filter (gorm.owned_by_text (engine w) (gin.Param_id c'))
                         (products (db w)) ++
                  (if gorm.owned_by_text (engine w) (gin.Param_id c') p
                   then [p] else []))%list)).
  { intros A c'.
    change (fst (listUserProducts c' w'))
      with (result (listUserProducts c') w').
    rewrite (listUserProducts_response c' w'). unfold w'.
    cbn [sql_faults hd db products engine]. rewrite filter_app. cbn [filter].
    reflexivity. }
  clearbody w'. unfold p at 1 2 3 4 5.
  cbn [Product.Name Product.Expiry Product.UserID Product.CreatedAt Product.ID].
  repeat split; try assumption.
  - apply next_id_not_in.
  - intros A c' key' Ha'. rewrite G.
    rewrite (filter_owned_by_text_key _ _ key' _ Ha').
    rewrite (owned_by_text_key _ _ key' _ Ha').
    unfold gorm.owned_by at 2. unfold p at 1. cbn [Product.UserID].
    rewrite Hid, (N.eqb_sym key key'). reflexivity.
Qed.

Lemma an_added_product_is_listed_witness :
  exists p,
    result (serve (post_product "2" "Tea" (noon + Day))) example_world
      = gin.mkResponse http.StatusOK (gin.VProduct p) /\
    result (listUserProducts (A := unit) (gin.mkContext "2" (inr tt)))
           (run (serve (post_product "2" "Tea" (noon + Day))) example_world)
      = gin.mkResponse http.StatusOK
          (gin.VProducts [Product.mk 4 "Salt" (noon + 10 * Day) 2 noon; p]).
Proof.
  destruct (an_added_product_is_listed
              (gin.mkContext "2" (inr (mkProductInput "Tea" (noon + Day))))
              (mkProductInput "Tea" (noon + Day)) example_world 2%N
              (mkUserRow 2 "B" "b@x.com") eq_refl eq_refl eq_refl eq_refl)
    as (p & Hr & _ & _ & _ & _ & _ & Hl & _).
  exists p. split; [exact Hr|].
  exact (Hl unit (gin.mkContext "2" (inr tt)) 2%N eq_refl).
Defined.

End RoundTrips.

(** ** More on the runs of the job *)

Section Runs.

Local Open Scope string_scope.

(** X1. Within sixty days of the expiry, before or after it, the day count
    that the job computes with floats, and prints in the message, is the
    integer division of the duration by 24 hours that truncates towards
    zero. *)
Theorem daysLeft_is_exact_within_sixty_days (expiry now : time.Time) :
  (- (60 * Day) < expiry - now < 60 * Day)%Z ->
  daysLeft expiry now = truncated_days expiry now.
Proof.
  intros H. unfold daysLeft, truncated_days.
  assert (E : time.Sub expiry now = (expiry - now)%Z).
  { unfold time.Sub, time.minDuration, time.maxDuration, Day in *.
    change time.Hour with 3600000000000%Z in H.
    destruct (Z.ltb_spec (expiry - now) minInt64);
      [unfold minInt64 in *; lia|].
    destruct (Z.ltb_spec maxInt64 (expiry - now));
      [unfold maxInt64 in *; lia|]. reflexivity. }
  rewrite E. apply days_float_exact, H.
Qed.

Lemma daysLeft_is_exact_within_sixty_days_witness :
  (- (60 * Day) < (noon + 2 * Day + 1) - noon < 60 * Day)%Z /\
  daysLeft (noon + 2 * Day + 1) noon = 2%Z /\
  truncated_days (noon + 2 * Day + 1) noon = 2%Z.
Proof.
  assert (H : (- (60 * Day) < (noon + 2 * Day + 1) - noon < 60 * Day)%Z)
    by (split; reflexivity).
  split; [exact H|].
  rewrite (daysLeft_is_exact_within_sixty_days _ _ H).
  split; reflexivity.
Defined.

(** X2. Whatever the two dates, the day count of the job lies between
    -106752 and 106752 (the duration saturates at about 292 years), so the
    conversion of the float to an int is always the truncation; it is not
    negative before the expiry and not positive after it. *)
Theorem daysLeft_is_bounded_and_has_the_sign_of_the_duration
  (expiry now : time.Time) :
  (-106752 <= daysLeft expiry now <= 106752)%Z /\
  (now <= expiry -> 0 <= daysLeft expiry now)%Z /\
  (expiry <= now -> daysLeft expiry now <= 0)%Z.
Proof.
  unfold daysLeft. pose proof (Sub_range expiry now) as R.
  pose proof (Sub_nonpos expiry now) as Sn.
  assert (Sp : (0 <= time.Sub expiry now <-> 0 <= expiry - now)%Z).
  { unfold time.Sub, time.minDuration, time.maxDuration.
    destruct (Z.ltb_spec (expiry - now) minInt64);
      [unfold minInt64 in *; lia|].
    destruct (Z.ltb_spec maxInt64 (expiry - now));
      [unfold maxInt64 in *; lia|]. lia. }
  set (d := time.Sub expiry now) in *.
  assert (Dp : (now <= expiry -> 0 <= d)%Z) by (intros; apply Sp; lia).
  assert (Dn : (expiry <= now -> d <= 0)%Z) by (intros; apply Sn; lia).
  clear Sp Sn. clearbody d. change time.Duration with Z in d.
  destruct (quot_rem_Hour d) as (E & Rp & Rn).
  unfold minInt64, maxInt64 in R.
  change time.Hour with 3600000000000%Z in E, Rp, Rn.
  destruct (Z_lt_le_dec d 0) as [Hneg|Hpos].
  - specialize (Rn ltac:(lia)).
    destruct (Hours_div_24_bounds d (-2562047) 0 (-3599999999999) 0
                (-1) 0 (-2562048) 0 (-106752) 0) as [Ff Bf];
      try (apply sformat_IZR; reflexivity); try lra;
      try (change time.Hour with 3600000000000%Z; lia).
    pose proof (to_int_between _ (-106752) 0 Ff ltac:(reflexivity || (cbn; lia))
                  ltac:(cbn; lia) Bf) as B.
    destruct B as [B1 B2]. split; [split|split].
    + exact B1.
    + apply Z.le_trans with 0%Z; [exact B2 | discriminate].
    + intros H. specialize (Dp H). exfalso. apply (Z.lt_irrefl 0).
      apply Z.le_lt_trans with d; assumption.
    + intros _. exact B2.
  - specialize (Rp Hpos).
    destruct (Hours_div_24_bounds d 0 2562047 0 3599999999999
                0 1 0 2562048 0 106752) as [Ff Bf];
      try (apply sformat_IZR; reflexivity); try lra;
      try (change time.Hour with 3600000000000%Z; lia).
    pose proof (to_int_between _ 0 106752 Ff ltac:(cbn; lia)
                  ltac:(cbn; lia) Bf) as B.
    destruct B as [B1 B2]. split; [split|split].
    + apply Z.le_trans with 0%Z; [discriminate | exact B1].
    + exact B2.
    + intros _. exact B1.
    + intros H. specialize (Dn H).
      assert (d = 0%Z) by (apply Z.le_antisymm; assumption). subst d.
      vm_compute. discriminate.
Qed.

Lemma daysLeft_is_bounded_and_has_the_sign_of_the_duration_witness :
  (noon <= noon + 2 * Day)%Z /\ (0 <= daysLeft (noon + 2 * Day) noon)%Z /\
  (noon - Day <= noon)%Z /\ (daysLeft (noon - Day) noon <= 0)%Z.
Proof.
  assert (H1 : (noon <= noon + 2 * Day)%Z) by discriminate.
  assert (H2 : (noon - Day <= noon)%Z) by discriminate.
  split; [exact H1|].
  split; [apply (proj1 (proj2 (daysLeft_is_bounded_and_has_the_sign_of_the_duration
                                 (noon + 2 * Day) noon)) H1)|].
  split; [exact H2|].
  apply (proj2 (proj2 (daysLeft_is_bounded_and_has_the_sign_of_the_duration
                         (noon - Day) noon)) H2).
Defined.

Lemma qualifies_later now later p :
  (now <= later)%Z -> qualifies now p = true -> qualifies later p = true.
Proof.
  intros Hle. unfold qualifies. rewrite !Z.leb_le, !daysLeft_le_3. lia.
Qed.

Lemma notified_later now later u :
  (now <= later)%Z -> notification now u <> [] -> notification later u <> [].
Proof.
  intros Hle. unfold notification.
  destruct (filter (qualifies now) (User.Products u)) as [|p ps] eqn:E;
    [intros H; contradiction|]. intros _.
  assert (Hp : In p (filter (qualifies later) (User.Products u))).
  { assert (Hin : In p (filter (qualifies now) (User.Products u)))
      by (rewrite E; left; reflexivity).
    apply filter_In in Hin. apply filter_In.
    split; [apply Hin | apply (qualifies_later now later p Hle), Hin]. }
  destruct (filter (qualifies later) (User.Products u)); [destruct Hp|discriminate].
Qed.

(** X3. Time only makes a product qualify: a product that the job lists at
    one time is listed at every later time, and a user who gets a message at
    one time gets one at every later time. *)
Theorem a_listed_product_stays_listed (now later : time.Time) :
  (now <= later)%Z ->
  (forall p, qualifies now p = true -> qualifies later p = true) /\
  (forall u, notification now u <> [] -> notification later u <> []).
Proof.
  intros Hle. split.
  - intros p. apply qualifies_later, Hle.
  - intros u. apply notified_later, Hle.
Qed.

Lemma a_listed_product_stays_listed_witness :
  (noon <= noon + 30 * Day)%Z /\
  qualifies (noon + 30 * Day)
            (Product.mk 1 "Milk" (noon + 2 * Day) 1 noon) = true.
Proof.
  assert (H : (noon <= noon + 30 * Day)%Z) by discriminate.
  split; [exact H|].
  apply (proj1 (a_listed_product_stays_listed noon (noon + 30 * Day) H)).
  reflexivity.
Defined.

End Runs.

Section RunsAgain.

Local Open Scope string_scope.

(** A run of the job is the loop over the users read, started in the world
    in which the first line has been logged, the store read and the clock
    read. *)
Lemma checkExpiryJob_unfold w :
  run checkExpiryJob w =
  run (forM_ (loaded_users w) (notify (wall w (ticks w))))
      (mkWorld (db w) (sql_faults (run gorm.Preload_Products_Find w))
               (wall w) (S (ticks w)) (smtp_faults w) (outbox w)
               (log w ++ ["Running expiry check job..."]) (engine w)).
Proof.
  destruct (Preload_frame w) as (r & f' & HP).
  unfold loaded_users, result, run.
  rewrite (HP w eq_refl eq_refl). cbn [fst snd sql_faults].
  unfold checkExpiryJob, bind, log_Println. cbv beta iota.
  match goal with
  | |- context [gorm.Preload_Products_Find ?w1] =>
      rewrite (HP w1 eq_refl eq_refl)
  end.
  reflexivity.
Qed.

Lemma Preload_without_faults w :
  sql_faults w = [] -> sql_faults (run gorm.Preload_Products_Find w) = [].
Proof.
  intros Hf.
  unfold run, gorm.Preload_Products_Find, bind, gorm.exec, gorm.get_db, ret.
  cbn [db sql_faults fst snd]. rewrite Hf. cbn [hd tl].
  destruct (users (db w)); reflexivity.
Qed.

Lemma loaded_users_same w w2 :
  db w2 = db w -> sql_faults w2 = sql_faults w ->
  loaded_users w2 = loaded_users w.
Proof.
  intros Hd Hf. destruct (Preload_frame w) as (r & f' & HP).
  unfold loaded_users, result.
  rewrite (HP w eq_refl eq_refl), (HP w2 Hd Hf). reflexivity.
Qed.

(** X9. Nothing remembers what has been notified.  When no SQL statement
    fails, the run that follows a run reads the same users, at the next
    reading of the clock, and notifies them by the same rule: every user who
    got a message in the first run gets one again when the clock has not
    gone back, and the very same messages when it shows the same time. *)
Theorem the_next_run_notifies_again (w : World) :
  sql_faults w = [] ->
  let now := wall w (ticks w) in
  let next := wall w (S (ticks w)) in
  let w1 := run checkExpiryJob w in
  sent_since w1 (run checkExpiryJob w1) =
    flat_map (notification next) (loaded_users w) /\
  ((now <= next)%Z ->
   forall u, notification now u <> [] -> notification next u <> []) /\
  (next = now ->
   sent_since w1 (run checkExpiryJob w1) = sent_since w w1).
Proof.
  intros Hf now next w1.
  destruct (checkExpiryJob_run w) as (T & W & D & _). fold w1 in T, W, D.
  assert (F1 : sql_faults w1 = []).
  { unfold w1. rewrite checkExpiryJob_unfold.
    match goal with
    | |- sql_faults (run (forM_ ?us ?f) ?w0) = _ =>
        destruct (forM_notify_delivered (wall w (ticks w)) us w0)
          as (_ & _ & _ & S & _)
    end.
    rewrite S. cbn [sql_faults]. apply Preload_without_faults, Hf. }
  assert (L : loaded_users w1 = loaded_users w).
  { apply loaded_users_same; [exact D | rewrite F1, Hf; reflexivity]. }
  assert (S2 : sent_since w1 (run checkExpiryJob w1) =
               flat_map (notification next) (loaded_users w)).
  { rewrite checkExpiryJob_sent, L, W, T. reflexivity. }
  split; [exact S2|]. split.
  - intros Hle u. apply notified_later, Hle.
  - intros E. rewrite S2, E. unfold w1. rewrite checkExpiryJob_sent.
    reflexivity.
Qed.

Lemma the_next_run_notifies_again_witness :
  sql_faults example_world = [] /\
  sent_since (run checkExpiryJob example_world)
             (run checkExpiryJob (run checkExpiryJob example_world))
  = sent_since example_world (run checkExpiryJob example_world).
Proof.
  split; [reflexivity|].
  apply (proj2 (proj2 (the_next_run_notifies_again example_world eq_refl))).
  reflexivity.
Defined.




(** One turn of the loop, and the loop, as to the log. *)
Lemma notify_log now u w :
  log (run (notify now u) w) =
    (log w ++ run_log now (smtp_faults w) [u])%list /\
  smtp_faults (run (notify now u) w) =
    skipn (List.length (messages now u)) (smtp_faults w).
Proof.
  cbn [run_log]. unfold intent_line. rewrite messages_expiring. unfold notify.
  destruct (expiring_of now (User.Products u)) as [|d l] eqn:E.
  - cbn. rewrite app_nil_r. split; reflexivity.
  - cbn [List.length Nat.ltb Nat.leb skipn].
    unfold run, bind, log_Println, sendEmailToUser, bind, DialAndSend, outcome_line.
    cbn [hd tl fst snd outbox smtp_faults db sql_faults wall ticks log].
    destruct (hd None (smtp_faults w)) as [e|] eqn:Eh;
      unfold log_Println;
      cbn [fst snd outbox smtp_faults db sql_faults wall ticks log
           gomail.To new_message];
      (split; [rewrite <- app_assoc; reflexivity
              | destruct (smtp_faults w); reflexivity]).
Qed.

Lemma run_log_cons now faults u us :
  run_log now faults (u :: us) =
  (run_log now faults [u] ++
   run_log now (skipn (List.length (messages now u)) faults) us)%list.
Proof.
  cbn [run_log]. destruct (messages now u) as [|m ms] eqn:E.
  - reflexivity.
  - pose proof (messages_expiring now u) as H. rewrite E in H.
    assert (ms = []).
    { destruct (expiring_of now (User.Products u)); inversion H. reflexivity. }
    subst ms. cbn [List.length skipn List.app].
    destruct faults; reflexivity.
Qed.

Lemma forM_notify_log now us w :
  log (run (forM_ us (notify now)) w) =
  (log w ++ run_log now (smtp_faults w) us)%list.
Proof.
  revert w. induction us as [|u us IH]; intros w.
  - cbn. rewrite app_nil_r. reflexivity.
  - rewrite run_log_cons. cbn [forM_].
    destruct (notify_log now u w) as [L F].
    specialize (IH (run (notify now u) w)).
    unfold run, bind in *. destruct (notify now u w) as [[] w1].
    cbn [snd] in *. rewrite IH, L, F, app_assoc. reflexivity.
Qed.

Lemma run_log_length now faults us :
  List.length (run_log now faults us) =
  (2 * List.length (flat_map (notification now) us))%nat.
Proof.
  revert faults. induction us as [|u us IH]; intros faults; [reflexivity|].
  cbn [run_log flat_map]. rewrite length_app, notification_messages, length_map.
  destruct (messages now u) as [|m ms] eqn:E.
  - rewrite IH. cbn. lia.
  - pose proof (messages_expiring now u) as H. rewrite E in H.
    assert (ms = []).
    { destruct (expiring_of now (User.Products u)); inversion H. reflexivity. }
    subst ms. cbn [List.length]. rewrite IH. lia.
Qed.

(** X11. The log of a run is its first line followed, for each user who gets
    a message and in the order of the users, by the line that announces the
    sending and the line of its outcome, success or failure: one line and two
    per message, and nothing for the users who get none. *)
Theorem the_log_of_a_run (w : World) :
  let now := wall w (ticks w) in
  let w' := run checkExpiryJob w in
  new_log w w' =
    "Running expiry check job..."
      :: run_log now (smtp_faults w) (loaded_users w) /\
  List.length (new_log w w') =
    (1 + 2 * List.length (sent_since w w'))%nat.
Proof.
  intros now w'.
  assert (L : new_log w w' =
              "Running expiry check job..."
                :: run_log now (smtp_faults w) (loaded_users w)).
  { unfold new_log, w'. rewrite checkExpiryJob_unfold, forM_notify_log.
    cbn [log smtp_faults]. rewrite <- app_assoc, skipn_app, Nat.sub_diag, skipn_all.
    reflexivity. }
  split; [exact L|].
  rewrite L. unfold w'. rewrite checkExpiryJob_sent. cbn [List.length].
  rewrite run_log_length. reflexivity.
Qed.

End RunsAgain.

(** ** The handlers without a route, and an [:id] that is no key *)

Section Handlers.

Local Open Scope string_scope.

(** What [addProduct] does with a body that binds. *)
Lemma addProduct_bound c input w :
  gin.ShouldBindJSON c = inr input ->
  let id := gorm.next_id (map Product.ID (products (db w))) in
  let now := wall w (ticks w) in
  addProduct c w =
  match hd SqlOk (sql_faults w) with
  | SqlFailed _ _ =>
      (gin.mkResponse http.StatusOK
         (gin.VProduct
            (Product.mk 0 (pinput_Name input) (pinput_Expiry input) 0 now)),
       mkWorld (db w) (tl (sql_faults w)) (wall w) (S (ticks w))
               (smtp_faults w) (outbox w) (log w) (engine w))
  | SqlOk =>
      (gin.mkResponse http.StatusOK
         (gin.VProduct
            (Product.mk id (pinput_Name input) (pinput_Expiry input) 0 now)),
       mkWorld (mkDB (users (db w))
                     (products (db w) ++
                        [Product.mk id (pinput_Name input)
                                    (pinput_Expiry input) 0 now]))
               (tl (sql_faults w)) (wall w) (S (ticks w))
               (smtp_faults w) (outbox w) (log w) (engine w))
  end.
Proof.
  intros Hb id now. unfold addProduct. rewrite Hb.
  unfold gorm.Create_Product, bind, time_Now, gorm.exec, gorm.get_db,
    gorm.put_db, gin.JSON, ret.
  cbn [db sql_faults wall ticks smtp_faults outbox log fst snd
       Product.ID Product.Name Product.Expiry Product.UserID
       Product.CreatedAt N.eqb Z.eqb].
  destruct (hd SqlOk (sql_faults w)) as [|msg n]; [|reflexivity].
  fold id. unfold id at 1. rewrite next_id_fresh.
  cbn [db sql_faults wall ticks smtp_faults outbox log fst snd users products].
  reflexivity.
Qed.

(** X13. The handler [addProduct], which no route reaches, would break what
    the routed handlers keep: in a store whose user keys are positive it
    stores, when its body binds and the store saves it, a product whose owner
    is the key 0 of no user.  [listProducts] would list it, last, but it is
    in the list of products of no user of the store. *)
Theorem addProduct_would_store_a_product_of_nobody
  (c : gin.Context ProductInput) (input : ProductInput) (w : World) :
  gin.ShouldBindJSON c = inr input ->
  sql_faults w = [] ->
  keys_ok (map row_id (users (db w))) ->
  let w1 := run (addProduct c) w in
  exists p,
    result (addProduct c) w = gin.mkResponse http.StatusOK (gin.VProduct p) /\
    Product.UserID p = 0%N /\
    users (db w1) = users (db w) /\
    products (db w1) = (products (db w) ++ [p])%list /\
    ~ owners_exist (db w1) /\
    result listProducts w1 =
      gin.mkResponse http.StatusOK (gin.VProducts (products (db w) ++ [p])%list) /\
    (forall id, In id (map row_id (users (db w))) ->
       filter (gorm.owned_by id) (products (db w1)) =
       filter (gorm.owned_by id) (products (db w))).
Proof.
  intros Hb Hf Hk w1. unfold w1, run, result.
  rewrite (addProduct_bound c input w Hb). cbv zeta. rewrite Hf.
  cbn [hd tl fst snd db users products].
  apply keys_ok_NoDup in Hk. destruct Hk as [_ H0].
  eexists. split; [reflexivity|]. cbn [Product.UserID].
  split; [reflexivity|]. split; [reflexivity|]. split; [reflexivity|].
  split; [|split].
  - unfold owners_exist. cbn [users products]. intros Ho.
    apply Forall_app in Ho. destruct Ho as [_ Ho].
    inversion Ho; subst. cbn [Product.UserID] in *. contradiction.
  - unfold listProducts, Find_Products, bind, gorm.exec, gorm.get_db,
      gin.JSON, ret.
    cbn [db sql_faults hd tl fst snd products]. reflexivity.
  - intros id Hid. rewrite filter_app. cbn [filter].
    unfold gorm.owned_by at 2. cbn [Product.UserID].
    destruct (N.eqb_spec 0 id) as [E|_]; [|apply app_nil_r].
    subst id. contradiction.
Qed.

Lemma addProduct_would_store_a_product_of_nobody_witness :
  keys_ok (map row_id (users (db example_world))) /\
  ~ owners_exist
      (db (run (addProduct (gin.mkContext "" (inr (mkProductInput "Tea" noon))))
               example_world)).
Proof.
  assert (K : keys_ok (map row_id (users (db example_world))))
    by (cbn; repeat constructor).
  split; [exact K|].
  destruct (addProduct_would_store_a_product_of_nobody
              (gin.mkContext "" (inr (mkProductInput "Tea" noon)))
              (mkProductInput "Tea" noon) example_world eq_refl eq_refl K)
    as (p & _ & _ & _ & _ & H & _).
  exact H.
Defined.

(** In a table whose keys grow, the row of least key is the first. *)
Lemma least_row_first r rows :
  keys_ok (map row_id (r :: rows)) -> gorm.least_row (r :: rows) = Some r.
Proof.
  unfold keys_ok. intros H. inversion H as [|? ? Hs _]; subst. clear H.
  revert r Hs. induction rows as [|x rows IH]; intros r Hs; [reflexivity|].
  cbn [map] in Hs. inversion Hs as [|? ? Hs' Hr]; subst.
  assert (E : gorm.least_row (x :: rows) = Some x) by (apply IH, Hs').
  change (gorm.least_row (r :: x :: rows))
    with (match gorm.least_row (x :: rows) with
          | Some m => if N.ltb (row_id m) (row_id r) then Some m else Some r
          | None => Some r
          end).
  rewrite E. inversion Hr as [|? ? Hx _]; subst.
  destruct (N.ltb_spec (row_id x) (row_id r)) as [L|_]; [lia | reflexivity].
Qed.

(** X16. An [:id] that is a decimal numeral beyond the range of [int] is not
    looked up as a key: the store library hands it to the engine as the
    condition itself, and as a number that is not zero it is true of every
    row.  When the body binds and no SQL statement fails,
    [POST /users/:id/products] answers 200 and adds the product to the first
    user of the store, whatever the number; only with no user in the store
    does it answer 404. *)
Theorem a_numeral_beyond_int_adds_to_the_first_user
  (c : gin.Context ProductInput) (input : ProductInput) (w : World) (n : Z) :
  gin.ShouldBindJSON c = inr input ->
  strconv.numeral (gin.Param_id c) = Some n ->
  inInt64 n = false ->
  sql_faults w = [] ->
  keys_ok (map row_id (users (db w))) ->
  let r := result (serve (POST_users_id_products c)) w in
  let w1 := run (serve (POST_users_id_products c)) w in
  match users (db w) with
  | [] =>
      r = gin.mkResponse http.StatusNotFound (gin.H_error "user not found") /\
      db w1 = db w
  | first :: _ =>
      exists p,
        r = gin.mkResponse http.StatusOK (gin.VProduct p) /\
        Product.UserID p = row_id first /\
        Product.Name p = pinput_Name input /\
        Product.Expiry p = pinput_Expiry input /\
        users (db w1) = users (db w) /\
        products (db w1) = (products (db w) ++ [p])%list
  end.
Proof.
  intros Hb Hn Hr Hf Hk r w1. unfold r, w1, result, run. cbn [serve].
  unfold addProductToUser. rewrite Hb.
  unfold gorm.First_User, strconv.Atoi. rewrite Hn, Hr.
  unfold bind, gorm.exec, gorm.get_db, gin.JSON, ret.
  cbn [db sql_faults wall ticks smtp_faults outbox log engine fst snd].
  rewrite Hf. cbn [hd tl].
  destruct (users (db w)) as [|first rest] eqn:Eu.
  - cbn [gorm.least_row fst snd db]. split; reflexivity.
  - rewrite (least_row_first first rest Hk).
    unfold gorm.Create_Product, bind, time_Now, gorm.exec, gorm.get_db,
      gorm.put_db, ret.
    cbn [db sql_faults wall ticks smtp_faults outbox log engine fst snd hd tl
         gorm.scan User.ID Product.ID Product.Name Product.Expiry
         Product.UserID Product.CreatedAt N.eqb Z.eqb].
    rewrite next_id_fresh.
    cbn [db sql_faults wall ticks smtp_faults outbox log engine fst snd users
         products].
    eexists. split; [reflexivity|].
    cbn [Product.UserID Product.Name Product.Expiry].
    rewrite Eu. repeat split.
Qed.

Lemma a_numeral_beyond_int_adds_to_the_first_user_witness :
  strconv.Atoi "99999999999999999999" = None /\
  find (gorm.has_key 99999999999999999999) (users (db example_world)) = None /\
  exists p,
    result (serve (post_product "99999999999999999999" "Tea" noon))
           example_world
      = gin.mkResponse http.StatusOK (gin.VProduct p) /\
    Product.UserID p = 1%N.
Proof.
  split; [reflexivity|]. split; [reflexivity|].
  assert (K : keys_ok (map row_id (users (db example_world))))
    by (cbn; repeat constructor).
  destruct (a_numeral_beyond_int_adds_to_the_first_user
              (gin.mkContext "99999999999999999999"
                             (inr (mkProductInput "Tea" noon)))
              (mkProductInput "Tea" noon) example_world
              99999999999999999999%Z eq_refl eq_refl eq_refl eq_refl K)
    as (p & Hp & Hu & _).
  exists p. split; [exact Hp | exact Hu].
Defined.

End Handlers.

Section Reads.

Local Open Scope string_scope.

(** X14. The two GET routes only read: they leave the store as it is, and,
    when no SQL statement fails, asking again gives the same answer. *)
Theorem reading_twice_gives_the_same_answer (w : World) :
  (forall A (c : gin.Context A), db (run (listUserProducts c) w) = db w) /\
  db (run (serve GET_users) w) = db w /\
  (sql_faults w = [] ->
   (forall c, result (serve (GET_users_id_products c))
                     (run (serve (GET_users_id_products c)) w)
              = result (serve (GET_users_id_products c)) w) /\
   result (serve GET_users) (run (serve GET_users) w)
   = result (serve GET_users) w).
Proof.
  assert (P : forall A (c : gin.Context A),
             run (listUserProducts c) w =
             mkWorld (db w) (tl (sql_faults w)) (wall w) (ticks w)
                     (smtp_faults w) (outbox w) (log w) (engine w)).
  { intros A c.
    unfold run, listUserProducts, gorm.Where_user_id_Find, bind, gorm.exec,
      gorm.get_db, gorm.get_engine, gin.JSON, ret.
    cbn [db sql_faults engine fst snd].
    destruct (hd SqlOk (sql_faults w)); reflexivity. }
  assert (U : run listUsers w =
              mkWorld (db w) (tl (sql_faults w)) (wall w) (ticks w)
                      (smtp_faults w) (outbox w) (log w) (engine w)).
  { unfold run, listUsers, gorm.Find_Users, bind, gorm.exec, gorm.get_db,
      gin.JSON, ret.
    cbn [db sql_faults fst snd].
    destruct (hd SqlOk (sql_faults w)); reflexivity. }
  split; [intros A c; rewrite P; reflexivity|].
  cbn [serve]. split; [rewrite U; reflexivity|].
  intros Hf. split.
  - intros c. rewrite P, !listUserProducts_response.
    cbn [sql_faults db engine]. rewrite Hf. reflexivity.
  - rewrite U, !listUsers_response. cbn [sql_faults db]. rewrite Hf.
    reflexivity.
Qed.

Lemma reading_twice_gives_the_same_answer_witness :
  sql_faults example_world = [] /\
  result (serve GET_users) (run (serve GET_users) example_world)
  = result (serve GET_users) example_world.
Proof.
  split; [reflexivity|].
  apply (proj2 (proj2 (proj2 (reading_twice_gives_the_same_answer example_world))
                 eq_refl)).
Defined.

End Reads.
